(** * Devon agent: planner, dispatcher, memory store and orchestrator

    A shallow embedding of [devon_agent/planner.py], [devon_agent/executor.py],
    [devon_agent/memory.py] and [devon_agent/core.py], with the properties of
    the design document stated and settled against it.

    Conventions.
    - Python [str] values are [string]s; the text the agent handles is ASCII,
      on which [str.lower] maps [A-Z] to [a-z] and leaves every other
      character alone.
    - A Python [dict] is a [gmap]; a [list] that is only read is a Rocq list;
      the lists the orchestrator mutates in place live in a heap of list
      objects and are named by their location, so that two names of one
      object stay two names of one object.
    - [datetime.now().isoformat()] is an input: operations that read the clock
      take the time stamp as an argument.
    - A Python exception (a subclass of [Exception], what the source's
      [except Exception] clauses catch) is its message; code that may raise
      returns [Exc A]. *)

From Stdlib Require Import String Ascii List ZArith Lia Bool DecimalString DecimalNat.
From stdpp Require Import gmap strings list fin_maps.

Local Open Scope list_scope.

(* ===================================================================== *)
(** * Python primitives on [str] *)
(* ===================================================================== *)

Module Py.

(** [c.lower()] on one ASCII character. *)
Definition lower_ascii (c : ascii) : ascii :=
  let n := N_of_ascii c in
  if ((65 <=? n) && (n <=? 90))%N then ascii_of_N (n + 32) else c.

(** [s.lower()]. *)
Fixpoint lower (s : string) : string :=
  match s with
  | EmptyString => EmptyString
  | String c s' => String (lower_ascii c) (lower s')
  end.

(** [s.startswith(p)]. *)
Definition startswith (s p : string) : bool := String.prefix p s.

(** [needle in hay] for two [str]: substring search, leftmost position
    first. *)
Fixpoint str_in (needle hay : string) : bool :=
  String.prefix needle hay ||
  match hay with
  | EmptyString => false
  | String _ hay' => str_in needle hay'
  end.

(** [any(k in hay for k in keywords)]. *)
Definition any_in (keywords : list string) (hay : string) : bool :=
  existsb (fun k => str_in k hay) keywords.

(** [s[:n]] for [n >= 0]. *)
Definition take (n : nat) (s : string) : string := String.substring 0 n s.

(** [sep.join(parts)]. *)
Definition join (sep : string) (parts : list string) : string :=
  String.concat sep parts.

(** [str(n)] / [f"{n}"] for a non-negative [int]. *)
Definition str_of_nat (n : nat) : string :=
  NilEmpty.string_of_uint (Nat.to_uint n).

(** The one-character string ["\n"]. *)
Definition newline : string := String (ascii_of_nat 10) EmptyString.

(** [l[start:]] on a list, with Python's treatment of a negative or
    out-of-range start. *)
Definition slice_from {A} (start : Z) (l : list A) : list A :=
  let len := Z.of_nat (length l) in
  let i := if (start <? 0)%Z then Z.max (len + start) 0 else Z.min start len in
  drop (Z.to_nat i) l.

(** [l.remove(x)]: delete the first element equal to [x]; [None] is the
    [ValueError] raised when there is none. *)
Fixpoint list_remove (x : string) (l : list string) : option (list string) :=
  match l with
  | [] => None
  | y :: l' =>
      if String.eqb y x then Some l'
      else match list_remove x l' with
           | Some r => Some (y :: r)
           | None => None
           end
  end.

(** What the specification calls a substring: [needle] occurs in [hay]. *)
Definition Substring (needle hay : string) : Prop :=
  exists pre post, hay = pre +:+ needle +:+ post.

(** The characters [str.strip] removes: those [str.isspace] holds of. *)
Definition is_space (c : ascii) : bool :=
  let n := N_of_ascii c in
  (((9 <=? n) && (n <=? 13)) || ((28 <=? n) && (n <=? 31)) || (n =? 32))%N.

(** [s.lstrip()]. *)
Fixpoint lstrip (s : string) : string :=
  match s with
  | EmptyString => EmptyString
  | String c s' => if is_space c then lstrip s' else s
  end.

(** [s.rstrip()]. *)
Fixpoint rstrip (s : string) : string :=
  match s with
  | EmptyString => EmptyString
  | String c s' =>
      match rstrip s' with
      | EmptyString => if is_space c then EmptyString else String c EmptyString
      | r => String c r
      end
  end.

(** [s.strip()]. *)
Definition strip (s : string) : string := rstrip (lstrip s).

End Py.

(** Exceptions: the message of the exception, or a value. *)
Definition Exc (A : Type) : Type := (string + A)%type.

(* ===================================================================== *)
(** * planner.py *)
(* ===================================================================== *)

Module Planner.

Inductive Complexity := simple | moderate | complex.

Inductive Strategy := sequential | parallel | hierarchical.

Definition complex_keywords : list string :=
  ["implement"; "refactor"; "optimize"; "migrate"; "deploy"].

Definition simple_keywords : list string :=
  ["fix"; "add"; "update"; "change"; "rename"].

(** [TaskPlanner._analyze_complexity]. *)
Definition _analyze_complexity (request : string) : Complexity :=
  let request_lower := Py.lower request in
  if Py.any_in complex_keywords request_lower then complex
  else if Py.any_in simple_keywords request_lower then simple
  else if 200 <? String.length request then complex
  else moderate.

(** [TaskPlanner._select_strategy]: the strategy map; the [.get] default is
    never reached on a [Complexity]. *)
Definition _select_strategy (c : Complexity) : Strategy :=
  match c with
  | simple => sequential
  | moderate => parallel
  | complex => hierarchical
  end.

Definition test_tasks : list string :=
  ["Analyze existing test coverage"; "Write unit tests"; "Run tests and verify"].

Definition api_tasks : list string :=
  ["Design API endpoints"; "Implement API handlers"; "Add API documentation"].

Definition debug_tasks : list string :=
  ["Identify the bug location"; "Analyze root cause"; "Implement fix";
   "Verify fix works"].

Definition generic_tasks : list string :=
  ["Understand requirements"; "Implement solution"; "Test implementation"].

(** [TaskPlanner._sequential_planning]. *)
Definition _sequential_planning (request : string) : list string :=
  if Py.str_in "test" (Py.lower request) then test_tasks
  else if Py.str_in "api" (Py.lower request) then api_tasks
  else if Py.str_in "bug" (Py.lower request) || Py.str_in "fix" (Py.lower request)
       then debug_tasks
  else generic_tasks.

(** [TaskPlanner._parallel_planning]. *)
Definition _parallel_planning (request : string) : list string :=
  map (fun task =>
         if Py.str_in "test" (Py.lower task) || Py.str_in "document" (Py.lower task)
         then "[Parallel] " +:+ task else task)
      (_sequential_planning request).

Definition high_level_tasks : list string :=
  ["1. Analyze requirements"; "2. Design solution architecture";
   "3. Implement core functionality"; "4. Add error handling and edge cases";
   "5. Write tests"; "6. Document implementation"].

(** [TaskPlanner._hierarchical_planning]: the request is not consulted. *)
Definition _hierarchical_planning (request : string) : list string :=
  flat_map (fun task =>
              task ::
              if Py.str_in "Implement" task then
                ["  - Set up project structure"; "  - Implement main logic";
                 "  - Add helper functions"]
              else if Py.str_in "test" (Py.lower task) then
                ["  - Write unit tests"; "  - Write integration tests"]
              else [])
           high_level_tasks.

Definition is_parallel (task : string) : bool := Py.startswith task "[Parallel]".

(** [TaskPlanner._identify_dependencies]: [seen] holds [tasks[0..i-1]],
    latest first, which is the order the inner loop visits them in. *)
Fixpoint identify_from (seen : list string) (tasks : list string)
         (dependencies : gmap string (list string)) : gmap string (list string) :=
  match tasks with
  | [] => dependencies
  | task :: rest =>
      let deps :=
        if is_parallel task then []
        else match List.find (fun t => negb (is_parallel t)) seen with
             | Some t => [t]
             | None => []
             end in
      identify_from (task :: seen) rest
        (match deps with
         | [] => dependencies
         | _ => <[task := deps]> dependencies
         end)
  end.

Definition _identify_dependencies (tasks : list string) : gmap string (list string) :=
  identify_from [] tasks ∅.

(** [TaskPlan] ([estimated_time] is never set). *)
Record TaskPlan := {
  tasks : list string;
  dependencies : gmap string (list string);
  complexity : Complexity
}.

(** [TaskPlanner.create_plan]; the strategy functions ignore [context]. *)
Definition create_plan (request : string) : TaskPlan :=
  let complexity := _analyze_complexity request in
  let strategy := _select_strategy complexity in
  let tasks :=
    match strategy with
    | sequential => _sequential_planning request
    | parallel => _parallel_planning request
    | hierarchical => _hierarchical_planning request
    end in
  {| tasks := tasks;
     dependencies := _identify_dependencies tasks;
     complexity := complexity |}.

(** One turn of the loop of [optimize_plan] on [unique_tasks] and [seen]. *)
Definition optimize_step (acc : list string * gset string) (task : string)
  : list string * gset string :=
  let (unique_tasks, seen) := acc in
  let task_key := Py.strip (Py.lower task) in
  if decide (task_key ∈ seen) then acc
  else (unique_tasks ++ [task], {[task_key]} ∪ seen).

(** [TaskPlanner.optimize_plan]: only [plan.tasks] is replaced. *)
Definition optimize_plan (plan : TaskPlan) : TaskPlan :=
  {| tasks := fst (fold_left optimize_step (tasks plan) ([], ∅));
     dependencies := dependencies plan;
     complexity := complexity plan |}.

End Planner.

(* ===================================================================== *)
(** * Task results *)
(* ===================================================================== *)

Module Task.

(** The values handlers put into the shared context dictionary. *)
Inductive Value := VStr (s : string) | VInt (z : Z).

Record CodeChange := {
  cc_file : string;
  cc_action : string;
  cc_lines : nat
}.

(** The [artifacts] dictionary of one result: each category may be absent. *)
Record ResultArtifacts := {
  r_files_created : option (list string);
  r_files_modified : option (list string);
  r_commands_executed : option (list string);
  r_errors : option (list string)
}.

(** The result dictionary of a dispatched task, with the keys the
    orchestrator reads ([success], [summary], [code_changes], [artifacts],
    [context]) and the two the dispatcher writes on failure ([error],
    [task]); [None] is an absent key.  Handler-specific payloads
    ([test_results], [analysis], [fixes]) are read by nobody and left out. *)
Record TaskResult := {
  success : bool;
  summary : option string;
  code_changes : option (list CodeChange);
  artifacts : option ResultArtifacts;
  context : option (gmap string Value);
  error : option string;
  task : option string
}.

End Task.

Abbreviation Value := Task.Value.
Abbreviation TaskResult := Task.TaskResult.
Abbreviation CodeChange := Task.CodeChange.

(* ===================================================================== *)
(** * executor.py *)
(* ===================================================================== *)

Module Executor.

Import Task.

Inductive Handler :=
| test_handler
| implementation_handler
| analysis_handler
| debug_handler
| generic_handler.

(** The [if]/[elif] chain of [CodeExecutor.execute_task]. *)
Definition route (task : string) : Handler :=
  if Py.str_in "test" (Py.lower task) then test_handler
  else if Py.str_in "implement" (Py.lower task) || Py.str_in "write" (Py.lower task)
       then implementation_handler
  else if Py.str_in "analyze" (Py.lower task) then analysis_handler
  else if Py.str_in "fix" (Py.lower task) || Py.str_in "debug" (Py.lower task)
       then debug_handler
  else generic_handler.

(** [CodeExecutor._determine_file_path] (it does not read [context]). *)
Definition _determine_file_path (task : string) : string :=
  if Py.str_in "api" (Py.lower task) then "api/endpoints.py"
  else if Py.str_in "test" (Py.lower task) then "tests/test_main.py"
  else if Py.str_in "model" (Py.lower task) then "models/data_model.py"
  else "src/implementation.py".

(** [CodeExecutor._execute_generic_task]. *)
Definition _execute_generic_task (task : string) : TaskResult :=
  {| success := true;
     summary := Some ("Completed: " +:+ task);
     code_changes := None;
     artifacts := None;
     context := Some {[ "last_task" := VStr task ]};
     error := None;
     task := None |}.

(** The dictionary built by the [except Exception] clause of
    [CodeExecutor.execute_task]. *)
Definition failure_result (e : string) (task : string) : TaskResult :=
  {| success := false;
     summary := None;
     code_changes := None;
     artifacts := None;
     context := None;
     error := Some e;
     task := Some task |}.

Section Dispatch.

(** The workspace the handlers act on (files, sub-processes). *)
Variable World : Type.

(** The four handlers that touch the workspace.  Each either returns a
    result or raises, and leaves the workspace changed either way. *)
Variable _execute_test_task : string -> gmap string Value -> World -> Exc TaskResult * World.
Variable _execute_implementation_task : string -> gmap string Value -> World -> Exc TaskResult * World.
Variable _execute_analysis_task : string -> gmap string Value -> World -> Exc TaskResult * World.
Variable _execute_debug_task : string -> gmap string Value -> World -> Exc TaskResult * World.

Definition run_handler (h : Handler) (task : string) (ctx : gmap string Value)
           (w : World) : Exc TaskResult * World :=
  match h with
  | test_handler => _execute_test_task task ctx w
  | implementation_handler => _execute_implementation_task task ctx w
  | analysis_handler => _execute_analysis_task task ctx w
  | debug_handler => _execute_debug_task task ctx w
  | generic_handler => (inr (_execute_generic_task task), w)
  end.

(** [CodeExecutor.execute_task]: route, run, and turn an exception of the
    handler into a failure result.  (The [memory] argument of the source
    is not used by it.) *)
Definition execute_task (task : string) (ctx : gmap string Value) (w : World)
  : TaskResult * World :=
  match run_handler (route task) task ctx w with
  | (inr result, w') => (result, w')
  | (inl e, w') => (failure_result e task, w')
  end.

End Dispatch.

End Executor.

(* ===================================================================== *)
(** * The regular expressions of memory.py *)
(* ===================================================================== *)

(** The three patterns of [_extract_to_long_term] are sequences of character
    classes, each taken once, optionally ([?]) or one or more times ([+]),
    with at most one capture group.  [re_match] is the backtracking matcher
    of Python's [re] on that fragment: quantifiers are greedy and give back
    one character at a time. *)
Module Re.

Inductive Quant := Once | Optional | OneOrMore.

Record Item := {
  cls : ascii -> bool;
  quant : Quant;
  captured : bool
}.

Definition in_range (lo hi : N) (c : ascii) : bool :=
  ((lo <=? N_of_ascii c) && (N_of_ascii c <=? hi))%N.

(** [\w] *)
Definition word (c : ascii) : bool :=
  in_range 97 122 c || in_range 65 90 c || in_range 48 57 c || Ascii.eqb c "_".

(** [\s]: tab to carriage return, the four separators 28 to 31, space. *)
Definition space (c : ascii) : bool :=
  in_range 9 13 c || in_range 28 31 c || Ascii.eqb c " ".

Definition lit (x : ascii) (c : ascii) : bool := Ascii.eqb c x.

Definition one_of (xs : list ascii) (c : ascii) : bool :=
  existsb (Ascii.eqb c) xs.

Definition push (c : ascii) (r : option (list string * string))
  : option (list string * string) :=
  match r with
  | Some (part :: parts, rest) => Some (String c part :: parts, rest)
  | _ => None
  end.

Definition open_part (r : option (list string * string))
  : option (list string * string) :=
  match r with
  | Some (parts, rest) => Some (EmptyString :: parts, rest)
  | None => None
  end.

(** Zero or more characters of class [p], longest first, then [k]. *)
Fixpoint many (p : ascii -> bool) (k : string -> option (list string * string))
         (s : string) : option (list string * string) :=
  match s with
  | String c s' =>
      if p c then
        match push c (many p k s') with
        | Some r => Some r
        | None => open_part (k s)
        end
      else open_part (k s)
  | EmptyString => open_part (k s)
  end.

(** One character of class [p], then [k]. *)
Definition one (p : ascii -> bool) (k : string -> option (list string * string))
           (s : string) : option (list string * string) :=
  match s with
  | String c s' => if p c then push c (open_part (k s')) else None
  | EmptyString => None
  end.

(** Match the items at the start of [s]: the text each item consumed, and
    the rest of [s]. *)
Fixpoint re_match (r : list Item) (s : string) : option (list string * string) :=
  match r with
  | [] => Some ([], s)
  | it :: r' =>
      match quant it with
      | Once => one (cls it) (re_match r') s
      | Optional =>
          match one (cls it) (re_match r') s with
          | Some res => Some res
          | None => open_part (re_match r' s)
          end
      | OneOrMore =>
          match s with
          | String c s' => if cls it c then push c (many (cls it) (re_match r') s') else None
          | EmptyString => None
          end
      end
  end.

Definition concat_parts (parts : list string) : string :=
  fold_right String.append EmptyString parts.

(** What [findall] reports for one match: the group when the pattern has
    one, the whole match otherwise. *)
Definition reported (r : list Item) (parts : list string) : string :=
  if existsb captured r then
    concat_parts (map snd (filter (fun ip => captured (fst ip)) (combine r parts)))
  else concat_parts parts.

(** [re.findall(r, s)]: leftmost matches, not overlapping.  [skip] counts
    the characters of [s] still covered by the previous match. *)
Fixpoint findall_from (r : list Item) (skip : nat) (s : string) : list string :=
  match skip with
  | S skip' =>
      match s with
      | String _ s' => findall_from r skip' s'
      | EmptyString => []
      end
  | O =>
      match re_match r s with
      | Some (parts, _) =>
          reported r parts ::
          match s with
          | String _ s' => findall_from r (String.length (concat_parts parts) - 1) s'
          | EmptyString => []
          end
      | None =>
          match s with
          | String _ s' => findall_from r 0 s'
          | EmptyString => []
          end
      end
  end.

Definition findall (r : list Item) (s : string) : list string := findall_from r 0 s.

Definition item (p : ascii -> bool) (q : Quant) : Item :=
  {| cls := p; quant := q; captured := false |}.

Definition group (p : ascii -> bool) (q : Quant) : Item :=
  {| cls := p; quant := q; captured := true |}.

Definition literal (s : string) : list Item :=
  map (fun c => item (lit c) Once) (list_ascii_of_string s).

(** [r'[./\\]?[\w./\\-]+\.\w+'] *)
Definition path_re : list Item :=
  [ item (one_of ["."; "/"; "\"]%char) Optional;
    item (fun c => word c || one_of ["."; "/"; "\"; "-"]%char c) OneOrMore;
    item (lit ".") Once;
    item word OneOrMore ].

(** [r'def\s+(\w+)'] *)
Definition def_re : list Item :=
  literal "def" ++ [ item space OneOrMore; group word OneOrMore ].

(** [r'class\s+(\w+)'] *)
Definition class_re : list Item :=
  literal "class" ++ [ item space OneOrMore; group word OneOrMore ].

End Re.

(* ===================================================================== *)
(** * memory.py *)
(* ===================================================================== *)

Module Memory.

Record Interaction := {
  timestamp : string;
  role : string;
  content : string;
  metadata : gmap string Value
}.

(** The records stored in the long-term dictionary. *)
Inductive Fact :=
| FileFact (last_mentioned context : string)
| DefinitionFact (defined_at type : string)
| ErrorFact (timestamp content : string).

(** The attributes of a [MemoryManager]; [maxlen] is the [maxlen] of the
    [short_term] deque (a negative [max_short_term] is refused by [deque]). *)
Record MemoryManager := {
  short_term : list Interaction;
  maxlen : nat;
  long_term : gmap string Fact;
  interactions : list Interaction;
  persistence_path : option string
}.

(** [deque.append] on a deque of bound [maxlen]: the item goes in at the
    right and, if the deque is then over its bound, the leftmost item is
    dropped. *)
Definition deque_append (maxlen : nat) (d : list Interaction) (x : Interaction)
  : list Interaction :=
  let d' := d ++ [x] in
  if maxlen <? length d' then drop 1 d' else d'.

(** [len([k for k in self.long_term if k.startswith('error_')])]. *)
Definition error_count (long_term : gmap string Fact) : nat :=
  size (filter (fun kv => Is_true (Py.startswith (fst kv) "error_")) long_term).

(** [MemoryManager._extract_to_long_term]. *)
Definition _extract_to_long_term (interaction : Interaction)
           (long_term : gmap string Fact) : gmap string Fact :=
  let content := content interaction in
  let with_paths :=
    if Py.str_in "/" content || Py.str_in "\" content then
      fold_left
        (fun m path =>
           <["file_" +:+ path := FileFact (timestamp interaction) (Py.take 100 content)]> m)
        (Re.findall Re.path_re content) long_term
    else long_term in
  let with_definitions :=
    if Py.str_in "def " content || Py.str_in "class " content then
      let functions := Re.findall Re.def_re content in
      let classes := Re.findall Re.class_re content in
      fold_left
        (fun m cls =>
           <["class_" +:+ cls := DefinitionFact (timestamp interaction) "class"]> m)
        classes
        (fold_left
           (fun m func =>
              <["function_" +:+ func := DefinitionFact (timestamp interaction) "function"]> m)
           functions with_paths)
    else with_paths in
  if Py.str_in "error" (Py.lower content) || Py.str_in "exception" (Py.lower content) then
    let error_key := "error_" +:+ Py.str_of_nat (error_count with_definitions) in
    <[error_key := ErrorFact (timestamp interaction) (Py.take 200 content)]> with_definitions
  else with_definitions.

(** [MemoryManager.add_interaction]; [now] is [datetime.now().isoformat()]. *)
Definition add_interaction (now : string) (role content : string)
           (metadata : option (gmap string Value)) (m : MemoryManager) : MemoryManager :=
  let interaction :=
    {| timestamp := now; role := role; content := content;
       metadata := default ∅ metadata |} in
  {| short_term := deque_append (maxlen m) (short_term m) interaction;
     maxlen := maxlen m;
     long_term := _extract_to_long_term interaction (long_term m);
     interactions := interactions m ++ [interaction];
     persistence_path := persistence_path m |}.

(** [MemoryManager.get_recent_context]: [list(self.short_term)[-n:]]. *)
Definition get_recent_context (n : Z) (m : MemoryManager) : list Interaction :=
  Py.slice_from (- n) (short_term m).

(** [MemoryManager.clear]. *)
Definition clear (m : MemoryManager) : MemoryManager :=
  {| short_term := [];
     maxlen := maxlen m;
     long_term := ∅;
     interactions := [];
     persistence_path := persistence_path m |}.

(** The dictionary [save_memory] pickles; [None] is an absent key, which
    [load_memory] reads with a default. *)
Record MemoryData := {
  md_long_term : option (gmap string Fact);
  md_interactions : option (list Interaction);
  md_timestamp : option string
}.

Section Persistence.

(** File contents, and [pickle.dump] / [pickle.load] on memory snapshots;
    [pickle_load] gives [None] where [pickle.load] raises. *)
Variable Blob : Type.
Variable pickle_dump : MemoryData -> Blob.
Variable pickle_load : Blob -> option MemoryData.

(** [MemoryManager.save_memory] on a disk that maps paths to file contents
    (the write itself is taken to succeed). *)
Definition save_memory (now : string) (m : MemoryManager) (disk : gmap string Blob)
  : gmap string Blob :=
  match persistence_path m with
  | None => disk
  | Some path =>
      let memory_data :=
        {| md_long_term := Some (long_term m);
           md_interactions := Some (interactions m);
           md_timestamp := Some now |} in
      <[path := pickle_dump memory_data]> disk
  end.

(** [MemoryManager.load_memory]: an exception of [pickle.load] is logged and
    leaves the manager as it was. *)
Definition load_memory (m : MemoryManager) (disk : gmap string Blob) : MemoryManager :=
  match persistence_path m with
  | None => m
  | Some path =>
      match disk !! path with
      | None => m
      | Some blob =>
          match pickle_load blob with
          | None => m
          | Some memory_data =>
              let interactions' := default [] (md_interactions memory_data) in
              {| short_term :=
                   fold_left (deque_append (maxlen m))
                             (Py.slice_from (- Z.of_nat (maxlen m)) interactions')
                             (short_term m);
                 maxlen := maxlen m;
                 long_term := default ∅ (md_long_term memory_data);
                 interactions := interactions';
                 persistence_path := persistence_path m |}
          end
      end
  end.

(** [MemoryManager.__init__]: an empty path counts as no path. *)
Definition init (max_short_term : nat) (persistence_path : option string)
           (disk : gmap string Blob) : MemoryManager :=
  load_memory
    {| short_term := [];
       maxlen := max_short_term;
       long_term := ∅;
       interactions := [];
       persistence_path :=
         match persistence_path with
         | Some EmptyString => None
         | p => p
         end |}
    disk.

End Persistence.

(** A manager created without a persistence path, as [DevonAgent] does. *)
Definition fresh (max_short_term : nat) : MemoryManager :=
  {| short_term := [];
     maxlen := max_short_term;
     long_term := ∅;
     interactions := [];
     persistence_path := None |}.

(** [MemoryManager.get_file_history]. *)
Definition get_file_history (file_path : string) (m : MemoryManager) : list Interaction :=
  List.filter (fun interaction => Py.str_in file_path (content interaction)) (interactions m).

(** [len([k for k in self.long_term if k.startswith(p)])]. *)
Definition prefix_count (p : string) (long_term : gmap string Fact) : nat :=
  size (filter (fun kv => Is_true (Py.startswith (fst kv) p)) long_term).

(** The dictionary returned by [summarize_session]. *)
Record SessionSummary := {
  total_interactions : nat;
  files_mentioned : nat;
  functions_defined : nat;
  classes_defined : nat;
  errors_encountered : nat;
  session_start : option string;
  last_interaction : option string
}.

(** [MemoryManager.summarize_session]. *)
Definition summarize_session (m : MemoryManager) : SessionSummary :=
  {| total_interactions := length (interactions m);
     files_mentioned := prefix_count "file_" (long_term m);
     functions_defined := prefix_count "function_" (long_term m);
     classes_defined := prefix_count "class_" (long_term m);
     errors_encountered := prefix_count "error_" (long_term m);
     session_start := timestamp <$> head (interactions m);
     last_interaction := timestamp <$> last (interactions m) |}.

Section Search.

(** Python's [str] of the dictionary that holds a fact. *)
Variable str_of_value : Fact -> string.

(** [MemoryManager.search_memory].  The result list of the source is the
    short-term hits followed by one [{type: long_term, key, value}] entry
    per matching fact, in the order of the dictionary; the matching facts
    are given here as the sub-dictionary they form. *)
Definition search_memory (query memory_type : string) (m : MemoryManager)
  : list Interaction * gmap string Fact :=
  let query_lower := Py.lower query in
  (if String.eqb memory_type "short_term" || String.eqb memory_type "all" then
     List.filter (fun item => Py.str_in query_lower (Py.lower (content item))) (short_term m)
   else [],
   if String.eqb memory_type "long_term" || String.eqb memory_type "all" then
     filter (fun kv => Is_true (Py.str_in query_lower (Py.lower (fst kv)) ||
                                Py.str_in query_lower (Py.lower (str_of_value (snd kv)))))
            (long_term m)
   else ∅).

End Search.

End Memory.

(* ===================================================================== *)
(** * core.py *)
(* ===================================================================== *)

Module Core.

(** The dictionary returned by [_synthesize_response]. *)
Record Synthesis := {
  s_summary : string;
  s_code_changes : list CodeChange;
  total_tasks : nat;
  successful_tasks : nat
}.

(** One turn of the loop of [_synthesize_response] on its two accumulators. *)
Definition synthesize_step (acc : list string * list CodeChange) (result : TaskResult)
  : list string * list CodeChange :=
  let (summary_parts, changes) := acc in
  if Task.success result then
    (summary_parts ++ [default "Task completed" (Task.summary result)],
     match Task.code_changes result with
     | Some cs => changes ++ cs
     | None => changes
     end)
  else (summary_parts, changes).

(** [DevonAgent._synthesize_response]. *)
Definition _synthesize_response (results : list TaskResult) : Synthesis :=
  let (summary_parts, changes) := fold_left synthesize_step results ([], []) in
  {| s_summary := Py.join Py.newline summary_parts;
     s_code_changes := changes;
     total_tasks := length results;
     successful_tasks :=
       fold_left (fun n r => if Task.success r then n + 1 else n) results 0 |}.

Record Artifacts := {
  files_created : list string;
  files_modified : list string;
  commands_executed : list string;
  errors : list string
}.

Definition extend_with (acc : list string) (more : option (list string)) : list string :=
  match more with
  | Some l => acc ++ l
  | None => acc
  end.

(** [DevonAgent._collect_artifacts]. *)
Definition _collect_artifacts (results : list TaskResult) : Artifacts :=
  fold_left
    (fun acc result =>
       match Task.artifacts result with
       | Some ra =>
           {| files_created := extend_with (files_created acc) (Task.r_files_created ra);
              files_modified := extend_with (files_modified acc) (Task.r_files_modified ra);
              commands_executed := extend_with (commands_executed acc) (Task.r_commands_executed ra);
              errors := extend_with (errors acc) (Task.r_errors ra) |}
       | None => acc
       end)
    results
    {| files_created := []; files_modified := []; commands_executed := []; errors := [] |}.

(** The list objects the agent mutates, by location.  A name holding a
    location is a reference: assigning it copies the location, not the
    list. *)
Definition loc := nat.

(** The list at a location.  The locations an agent holds are allocated
    ([well_formed], [in_loop] below), so the default is never read. *)
Definition deref (heap : list (list string)) (l : loc) : list string :=
  default [] (heap !! l).

(** [AgentState]. *)
Record AgentState := {
  current_task : option string;
  completed_tasks : loc;
  pending_tasks : loc;
  context : gmap string Value
}.

(** What [process_request] returns; [tasks_completed] is the list object
    [self.state.completed_tasks] itself. *)
Inductive Response :=
| Completed (response : Synthesis) (tasks_completed : loc) (collected : Artifacts)
| Failed (error : string) (tasks_completed : loc).

Definition tasks_completed (r : Response) : loc :=
  match r with
  | Completed _ l _ => l
  | Failed _ l => l
  end.

Section Agent.

(** The workspace, and the clock as the sequence of its readings. *)
Variable World : Type.
Variable clock : nat -> string.

(** A [DevonAgent] together with what it runs in: the heap of its list
    objects, the workspace, and the number of clock readings so far. *)
Record DevonAgent := {
  state : AgentState;
  memory : Memory.MemoryManager;
  heap : list (list string);
  world : World;
  ticks : nat
}.

(** [self.memory.add_interaction(role, content)]. *)
Definition remember (role content : string) (a : DevonAgent) : DevonAgent :=
  {| state := state a;
     memory := Memory.add_interaction (clock (ticks a)) role content None (memory a);
     heap := heap a;
     world := world a;
     ticks := S (ticks a) |}.

Definition with_state (s : AgentState) (a : DevonAgent) : DevonAgent :=
  {| state := s; memory := memory a; heap := heap a; world := world a; ticks := ticks a |}.

Definition with_heap (h : list (list string)) (a : DevonAgent) : DevonAgent :=
  {| state := state a; memory := memory a; heap := h; world := world a; ticks := ticks a |}.

Definition with_world (w : World) (a : DevonAgent) : DevonAgent :=
  {| state := state a; memory := memory a; heap := heap a; world := w; ticks := ticks a |}.

(** The planner and the dispatcher as [process_request] sees them: calls
    that may raise. *)
Variable planner : string -> gmap string Value -> Exc Planner.TaskPlan.
Variable executor : string -> gmap string Value -> World -> Exc TaskResult * World.

(** [self.state.current_task = task] *)
Definition set_current_task (task : string) (a : DevonAgent) : DevonAgent :=
  let s := state a in
  with_state {| current_task := Some task;
                completed_tasks := completed_tasks s;
                pending_tasks := pending_tasks s;
                context := context s |} a.

(** [self.state.completed_tasks.append(task)] *)
Definition append_completed (task : string) (a : DevonAgent) : DevonAgent :=
  let done := completed_tasks (state a) in
  with_heap (<[done := deref (heap a) done ++ [task]]> (heap a)) a.

(** [self.state.pending_tasks.remove(task)]; [None] when it raises. *)
Definition remove_pending (task : string) (a : DevonAgent) : option DevonAgent :=
  let pending := pending_tasks (state a) in
  match Py.list_remove task (deref (heap a) pending) with
  | Some rest => Some (with_heap (<[pending := rest]> (heap a)) a)
  | None => None
  end.

(** [self.state.context.update(result.get("context", {}))] *)
Definition update_context (result : TaskResult) (a : DevonAgent) : DevonAgent :=
  let s := state a in
  with_state {| current_task := current_task s;
                completed_tasks := completed_tasks s;
                pending_tasks := pending_tasks s;
                context := default ∅ (Task.context result) ∪ context s |} a.

(** The body of the [for task in plan.tasks] loop for one [task]: the
    result to accumulate, or the exception that leaves the loop. *)
Definition run_task (task : string) (a : DevonAgent) : Exc TaskResult * DevonAgent :=
  let a := set_current_task task a in
  match executor task (context (state a)) (world a) with
  | (inl e, w) => (inl e, with_world w a)
  | (inr result, w) =>
      let a := append_completed task (with_world w a) in
      match remove_pending task a with
      | None => (inl "list.remove(x): x not in list", a)
      | Some a =>
          let a := update_context result a in
          (inr result, remember "assistant" ("Completed: " +:+ task) a)
      end
  end.

(** The [for task in plan.tasks] loop of [process_request].  The list
    iterator holds the list object [plan_tasks] and an index [i]; every turn
    reads the object as it is then, and stops when [i] is past its end.
    [None]: out of fuel. *)
Fixpoint task_loop (fuel : nat) (plan_tasks : loc) (i : nat) (a : DevonAgent)
         (results : list TaskResult) : option (Exc (list TaskResult) * DevonAgent) :=
  match fuel with
  | O => None
  | S fuel' =>
      match deref (heap a) plan_tasks !! i with
      | None => Some (inr results, a)
      | Some task =>
          match run_task task a with
          | (inl e, a') => Some (inl e, a')
          | (inr result, a') => task_loop fuel' plan_tasks (S i) a' (results ++ [result])
          end
      end
  end.

(** [plan.tasks] becomes a list object at a new location, and
    [self.state.pending_tasks = plan.tasks] stores that location. *)
Definition adopt_plan (plan : Planner.TaskPlan) (a : DevonAgent) : loc * DevonAgent :=
  let plan_tasks := length (heap a) in
  let a := with_heap (heap a ++ [Planner.tasks plan]) a in
  let s := state a in
  (plan_tasks,
   with_state {| current_task := current_task s;
                 completed_tasks := completed_tasks s;
                 pending_tasks := plan_tasks;
                 context := context s |} a).

(** [DevonAgent.process_request].  The loop needs one turn per task of
    the plan at most, and one more to find the iterator exhausted. *)
Definition process_request (user_request : string) (a : DevonAgent)
  : option (Response * DevonAgent) :=
  let a := remember "user" user_request a in
  match planner user_request (context (state a)) with
  | inl e => Some (Failed e (completed_tasks (state a)), a)
  | inr plan =>
      let (plan_tasks, a) := adopt_plan plan a in
      match task_loop (S (length (Planner.tasks plan))) plan_tasks 0 a [] with
      | None => None
      | Some (inl e, a) => Some (Failed e (completed_tasks (state a)), a)
      | Some (inr results, a) =>
          let response := _synthesize_response results in
          let a := remember "assistant" (s_summary response) a in
          Some (Completed response (completed_tasks (state a)) (_collect_artifacts results), a)
      end
  end.

(** [DevonAgent.reset]: a new [AgentState] (two new empty lists) and a
    cleared memory. *)
Definition reset (a : DevonAgent) : DevonAgent :=
  {| state := {| current_task := None;
                 completed_tasks := length (heap a);
                 pending_tasks := S (length (heap a));
                 context := ∅ |};
     memory := Memory.clear (memory a);
     heap := heap a ++ [[]; []];
     world := world a;
     ticks := ticks a |}.

(** [DevonAgent.__init__]. *)
Definition new_agent (w : World) : DevonAgent :=
  {| state := {| current_task := None;
                 completed_tasks := 0;
                 pending_tasks := 1;
                 context := ∅ |};
     memory := Memory.fresh 100;
     heap := [[]; []];
     world := w;
     ticks := 0 |}.

(** The dictionary returned by [get_state], its two lists read when the
    call returns. *)
Record StateView := {
  v_current_task : option string;
  v_completed_tasks : list string;
  v_pending_tasks : list string;
  v_memory_size : nat;
  v_context : gmap string Value
}.

(** [DevonAgent.get_state]. *)
Definition get_state (a : DevonAgent) : StateView :=
  {| v_current_task := current_task (state a);
     v_completed_tasks := deref (heap a) (completed_tasks (state a));
     v_pending_tasks := deref (heap a) (pending_tasks (state a));
     v_memory_size := length (Memory.interactions (memory a));
     v_context := context (state a) |}.

End Agent.

Section Wired.

(** The agent with its own planner and dispatcher plugged in: neither
    raises. *)
Variable World : Type.
Variable clock : nat -> string.
Variable _execute_test_task : string -> gmap string Value -> World -> Exc TaskResult * World.
Variable _execute_implementation_task : string -> gmap string Value -> World -> Exc TaskResult * World.
Variable _execute_analysis_task : string -> gmap string Value -> World -> Exc TaskResult * World.
Variable _execute_debug_task : string -> gmap string Value -> World -> Exc TaskResult * World.

Definition the_planner (request : string) (ctx : gmap string Value) : Exc Planner.TaskPlan :=
  inr (Planner.create_plan request).

Definition the_executor (task : string) (ctx : gmap string Value) (w : World)
  : Exc TaskResult * World :=
  let (result, w') :=
    Executor.execute_task World _execute_test_task _execute_implementation_task
                          _execute_analysis_task _execute_debug_task task ctx w in
  (inr result, w').

Definition agent_process_request (user_request : string) (a : DevonAgent World)
  : option (Response * DevonAgent World) :=
  process_request World clock the_planner the_executor user_request a.

End Wired.

End Core.

(* ===================================================================== *)
(** * Vocabulary of the statements *)
(* ===================================================================== *)

(** A task or request mentions one of the keywords: the keyword occurs in
    its lower-cased text. *)
Definition mentions (keyword text : string) : Prop :=
  Py.Substring keyword (Py.lower text).

Definition mentions_any (keywords : list string) (text : string) : Prop :=
  exists k, In k keywords /\ mentions k text.

(** What an insertion is made of: clock reading, role, content, metadata. *)
Record Entry := {
  e_now : string;
  e_role : string;
  e_content : string;
  e_metadata : option (gmap string Value)
}.

Definition interaction_of (e : Entry) : Memory.Interaction :=
  {| Memory.timestamp := e_now e;
     Memory.role := e_role e;
     Memory.content := e_content e;
     Memory.metadata := default ∅ (e_metadata e) |}.

Definition insert_entry (m : Memory.MemoryManager) (e : Entry) : Memory.MemoryManager :=
  Memory.add_interaction (e_now e) (e_role e) (e_content e) (e_metadata e) m.

(** The last [n] elements of a list. *)
Definition last_n {A} (n : nat) (l : list A) : list A := drop (length l - n) l.

(** The buffer holds the last [maxlen] entries of the log. *)
Definition buffer_tracks_log (m : Memory.MemoryManager) : Prop :=
  Memory.short_term m = last_n (Memory.maxlen m) (Memory.interactions m).

(** The facts in the store when the error fact is keyed: those of the file
    paths and definitions of this interaction are already in. *)
Definition before_error_fact (i : Memory.Interaction) (long_term : gmap string Memory.Fact)
  : gmap string Memory.Fact :=
  let content := Memory.content i in
  let with_paths :=
    if Py.str_in "/" content || Py.str_in "\" content then
      fold_left
        (fun m path =>
           <["file_" +:+ path := Memory.FileFact (Memory.timestamp i) (Py.take 100 content)]> m)
        (Re.findall Re.path_re content) long_term
    else long_term in
  if Py.str_in "def " content || Py.str_in "class " content then
    fold_left
      (fun m cls =>
         <["class_" +:+ cls := Memory.DefinitionFact (Memory.timestamp i) "class"]> m)
      (Re.findall Re.class_re content)
      (fold_left
         (fun m func =>
            <["function_" +:+ func := Memory.DefinitionFact (Memory.timestamp i) "function"]> m)
         (Re.findall Re.def_re content) with_paths)
  else with_paths.

Definition app_py_request : string := "see src/app.py for the error".

Definition hello_entry : Entry :=
  {| e_now := "2024-01-01T00:00:00"; e_role := "user"; e_content := "hello";
     e_metadata := None |}.

Definition summary_of (r : TaskResult) : string := default "Task completed" (Task.summary r).

Definition changes_of (r : TaskResult) : list CodeChange := default [] (Task.code_changes r).

Definition successful (results : list TaskResult) : list TaskResult :=
  List.filter Task.success results.

(** The code changes as the specification words them: those of every
    result, failed ones included. *)
Definition code_changes_of_every_result (results : list TaskResult) : list CodeChange :=
  concat (map changes_of results).

(** A result the implementation handler builds when the written file does
    not parse: not successful, with its change record. *)
Definition rejected_implementation : TaskResult :=
  {| Task.success := false;
     Task.summary := Some "Implemented src/implementation.py";
     Task.code_changes :=
       Some [{| Task.cc_file := "src/implementation.py";
                Task.cc_action := "created";
                Task.cc_lines := 17 |}];
     Task.artifacts := None;
     Task.context := None;
     Task.error := None;
     Task.task := None |}.

(** The elements at positions 0, 2, 4, ... and at positions 1, 3, 5, ... *)
Fixpoint evens (l : list string) : list string :=
  match l with
  | [] => []
  | x :: l' =>
      x :: match l' with
           | [] => []
           | _ :: l'' => evens l''
           end
  end.

Definition odds (l : list string) : list string :=
  match l with
  | [] => []
  | _ :: l' => evens l'
  end.

(** The completed list is a list object of the heap. *)
Definition well_formed (World : Type) (a : Core.DevonAgent World) : Prop :=
  Core.completed_tasks (Core.state World a) < length (Core.heap World a).

(** While the loop runs: the pending list is the list object [p] the
    iterator reads, and the completed list is another object. *)
Definition in_loop (World : Type) (p : Core.loc) (a : Core.DevonAgent World) : Prop :=
  Core.pending_tasks (Core.state World a) = p /\
  Core.completed_tasks (Core.state World a) <> p /\
  Core.completed_tasks (Core.state World a) < length (Core.heap World a) /\
  p < length (Core.heap World a).

(** Dispatching the tasks [ts] one after the other, each on the context
    left by the ones before it: the results, the final context and the final
    workspace. *)
Fixpoint run_tasks {World : Type}
         (exec : string -> gmap string Value -> World -> TaskResult * World)
         (ts : list string) (ctx : gmap string Value) (w : World)
  : list TaskResult * gmap string Value * World :=
  match ts with
  | [] => ([], ctx, w)
  | t :: ts' =>
      let rw := exec t ctx w in
      let out := run_tasks exec ts' (default ∅ (Task.context (fst rw)) ∪ ctx) (snd rw) in
      (fst rw :: fst (fst out), snd (fst out), snd out)
  end.

Definition bug_request : string := "fix the bug in module.py".

(** The completed lists the callers of a run of requests get to see, each
    read when its response is returned. *)
Fixpoint run_session (World : Type) (clock : nat -> string)
         (planner : string -> gmap string Value -> Exc Planner.TaskPlan)
         (executor : string -> gmap string Value -> World -> Exc TaskResult * World)
         (requests : list string) (a : Core.DevonAgent World)
  : option (list (list string)) :=
  match requests with
  | [] => Some []
  | user_request :: requests' =>
      match Core.process_request World clock planner executor user_request a with
      | None => None
      | Some (response, a') =>
          match run_session World clock planner executor requests' a' with
          | None => None
          | Some seen =>
              Some (Core.deref (Core.heap World a') (Core.tasks_completed response) :: seen)
          end
      end
  end.

(** Each list extends the one before it. *)
Fixpoint cumulative (previous : list string) (seen : list (list string)) : Prop :=
  match seen with
  | [] => True
  | l :: seen' => previous `prefix_of` l /\ cumulative l seen'
  end.

Definition raising_handler (e : string) (task : string) (ctx : gmap string Value) (w : unit)
  : Exc TaskResult * unit := (inl e, w).

Definition quiet_handler (task : string) (ctx : gmap string Value) (w : unit)
  : Exc TaskResult * unit := (inr (Executor._execute_generic_task task), w).

Definition fixed_clock (n : nat) : string := "2024-01-01T00:00:00".

Definition three_entries : list Entry :=
  [ {| e_now := "t1"; e_role := "user"; e_content := "one"; e_metadata := None |};
    {| e_now := "t2"; e_role := "assistant"; e_content := "two"; e_metadata := None |};
    {| e_now := "t3"; e_role := "user"; e_content := "three"; e_metadata := None |} ].

(** The key under which [optimize_plan] compares tasks. *)
Definition task_key (task : string) : string := Py.strip (Py.lower task).

(** The tasks whose key is neither in [seen] nor the key of an earlier
    task. *)
Fixpoint keep_first (seen : gset string) (tasks : list string) : list string :=
  match tasks with
  | [] => []
  | task :: tasks' =>
      if decide (task_key task ∈ seen) then keep_first seen tasks'
      else task :: keep_first ({[task_key task]} ∪ seen) tasks'
  end.

(** The nearest task before the current one that is not marked parallel;
    [before] lists the earlier tasks, first to last. *)
Definition nearest_serial (before : list string) : option string :=
  List.find (fun t => negb (Planner.is_parallel t)) (rev before).

(** An entry of the map stems from an occurrence of its key among the tasks
    gone through so far. *)
Definition entries_justified (deps : gmap string (list string)) (gone : list string) : Prop :=
  forall k v,
    deps !! k = Some v ->
    Planner.is_parallel k = false /\
    exists d pre post, v = [d] /\ gone = pre ++ k :: post /\ nearest_serial pre = Some d.

(** The recent buffer is within its capacity. *)
Definition bounded (m : Memory.MemoryManager) : Prop :=
  length (Memory.short_term m) <= Memory.maxlen m.

(** The four kinds of keys of the long-term dictionary. *)
Definition known_prefix (k : string) : Prop :=
  Py.startswith k "file_" = true \/ Py.startswith k "function_" = true \/
  Py.startswith k "class_" = true \/ Py.startswith k "error_" = true.

(** What [add_interaction] makes of the long-term dictionary. *)
Definition facts_after (now role content : string) (metadata : option (gmap string Value))
           (m : Memory.MemoryManager) : gmap string Memory.Fact :=
  Memory.long_term (Memory.add_interaction now role content metadata m).

(** A result of the matcher accounts for the text it was run on: the parts
    it consumed, then the rest. *)
Definition splits (res : list string * string) (s : string) : Prop :=
  s = Re.concat_parts (fst res) +:+ snd res.

(** The test of [_extract_to_long_term] for an error fact. *)
Definition mentions_error (i : Memory.Interaction) : bool :=
  Py.str_in "error" (Py.lower (Memory.content i)) ||
  Py.str_in "exception" (Py.lower (Memory.content i)).

(** The key of the [j]-th error fact. *)
Definition error_key (j : nat) : string := "error_" +:+ Py.str_of_nat j.

(** The error keys in use are [error_0] to [error_<n-1>], [n] the number of
    error facts. *)
Definition error_keys_dense (long_term : gmap string Memory.Fact) : Prop :=
  forall j, is_Some (long_term !! error_key j) <-> j < Memory.error_count long_term.

(** Every key is of one of the four kinds. *)
Definition all_known (long_term : gmap string Memory.Fact) : Prop :=
  forall k, is_Some (long_term !! k) -> known_prefix k.

(** The entries of one artifact category over all results, in task order;
    a result without artifacts, or without the category, gives none. *)
Definition gathered (category : Task.ResultArtifacts -> option (list string))
           (results : list TaskResult) : list string :=
  concat (map (fun r => match Task.artifacts r with
                        | Some ra => default [] (category ra)
                        | None => []
                        end) results).

(** The interaction log as the sequence of its roles and contents. *)
Definition log_view (m : Memory.MemoryManager) : list (string * string) :=
  map (fun i => (Memory.role i, Memory.content i)) (Memory.interactions m).

(** What the orchestrator logs for a task it has completed. *)
Definition completed_entry (task : string) : string * string :=
  ("assistant", "Completed: " +:+ task).

(** What the orchestrator logs at the end of a request. *)
Definition closing_entries (response : Core.Response) : list (string * string) :=
  match response with
  | Core.Completed r _ _ => [("assistant", Core.s_summary r)]
  | Core.Failed _ _ => []
  end.

(** The task named by [current_task] after the tasks [new] have been
    dispatched. *)
Definition last_or (previous : option string) (new : list string) : option string :=
  match last new with
  | Some t => Some t
  | None => previous
  end.

(* ===================================================================== *)
(** * Properties of the string primitives *)
(* ===================================================================== *)

Lemma prefix_app (p s : string) :
  String.prefix p s = true <-> exists post, s = p +:+ post.
Proof.
  revert s. induction p as [|c p IH]; intros s; simpl.
  - split; [intros _; exists s; reflexivity | intros _; now destruct s].
  - destruct s as [|d s]; simpl.
    + split; [discriminate | intros [post H]; discriminate].
    + destruct (Ascii.ascii_dec c d) as [->|Hne].
      * rewrite IH. split; intros [post H]; exists post.
        -- now rewrite H.
        -- now inversion H.
      * split; [discriminate | intros [post H]; inversion H; congruence].
Qed.

(** [str_in] decides the occurrence of a substring. *)
Lemma str_in_spec (needle hay : string) :
  Py.str_in needle hay = true <-> Py.Substring needle hay.
Proof.
  unfold Py.Substring. induction hay as [|c hay IH]; cbn [Py.str_in]; split.
  - intros H. apply orb_true_iff in H. destruct H as [H | H]; [|discriminate].
    apply prefix_app in H. destruct H as [post H].
    exists EmptyString, post. exact H.
  - intros [pre [post H]]. apply orb_true_iff. left. apply prefix_app.
    destruct pre; simpl in H; [exists post; exact H | discriminate].
  - intros H. apply orb_true_iff in H. destruct H as [H | H].
    + apply prefix_app in H. destruct H as [post H].
      exists EmptyString, post. exact H.
    + apply IH in H. destruct H as [pre [post H]].
      exists (String c pre), post. simpl. now rewrite H.
  - intros [pre [post H]]. apply orb_true_iff.
    destruct pre as [|d pre]; simpl in H.
    + left. apply prefix_app. exists post. exact H.
    + right. apply IH. inversion H. exists pre, post. reflexivity.
Qed.

Lemma str_in_false (needle hay : string) :
  Py.str_in needle hay = false <-> ~ Py.Substring needle hay.
Proof.
  rewrite <- str_in_spec. destruct (Py.str_in needle hay); split; easy.
Qed.

Lemma any_in_spec (keywords : list string) (text : string) :
  Py.any_in keywords (Py.lower text) = true <-> mentions_any keywords text.
Proof.
  unfold Py.any_in, mentions_any, mentions. rewrite existsb_exists.
  split; intros [k [Hin Hk]]; exists k; split; auto; now apply str_in_spec.
Qed.

Lemma any_in_false (keywords : list string) (text : string) :
  Py.any_in keywords (Py.lower text) = false <-> ~ mentions_any keywords text.
Proof.
  rewrite <- any_in_spec. destruct (Py.any_in keywords (Py.lower text)); split; easy.
Qed.

(* ===================================================================== *)
(** * The model on small inputs *)
(* ===================================================================== *)

Example lower_mixed_case : Py.lower "Fix THE Bug-42!" = "fix the bug-42!".
Proof. reflexivity. Qed.

Example findall_path_plain :
  Re.findall Re.path_re "see src/app.py for the error" = ["src/app.py"].
Proof. vm_compute. reflexivity. Qed.

Example findall_path_backtracks :
  Re.findall Re.path_re "a.b.c ./x/y-z.tar.gz and \d.e f."
  = ["a.b.c"; "./x/y-z.tar.gz"; "\d.e"].
Proof. vm_compute. reflexivity. Qed.

Example findall_def_group :
  Re.findall Re.def_re "def  foo(x): undef bar def" = ["foo"; "bar"].
Proof. vm_compute. reflexivity. Qed.

Example findall_class_group :
  Re.findall Re.class_re "class A(B): subclass  C" = ["A"; "C"].
Proof. vm_compute. reflexivity. Qed.

Example complexity_keyword_priority :
  Planner._analyze_complexity "fix and deploy" = Planner.complex.
Proof. vm_compute. reflexivity. Qed.

Example complexity_plain : Planner._analyze_complexity "hello" = Planner.moderate.
Proof. vm_compute. reflexivity. Qed.

Example hierarchical_plan_size :
  length (Planner._hierarchical_planning EmptyString) = 11.
Proof. vm_compute. reflexivity. Qed.

Example parallel_plan_marks :
  Planner._parallel_planning "hello"
  = ["Understand requirements"; "Implement solution"; "[Parallel] Test implementation"].
Proof. vm_compute. reflexivity. Qed.

Example dependencies_skip_parallel :
  Planner._identify_dependencies ["a"; "[Parallel] b"; "c"] = {[ "c" := ["a"] ]}.
Proof. vm_compute. reflexivity. Qed.

Example slice_from_minus_zero : Py.slice_from (- 0) [1; 2; 3] = [1; 2; 3].
Proof. reflexivity. Qed.

Example slice_from_last_two : Py.slice_from (- 2) [1; 2; 3] = [2; 3].
Proof. reflexivity. Qed.

Example list_remove_first_only :
  Py.list_remove "a" ["b"; "a"; "c"; "a"] = Some ["b"; "c"; "a"].
Proof. reflexivity. Qed.

(* ===================================================================== *)
(** * Planner *)
(* ===================================================================== *)

(** C2: the complexity of a request is [complex] when its lower-cased text
    contains one of implement, refactor, optimize, migrate, deploy; else
    [simple] when it contains one of fix, add, update, change, rename; else
    [complex] when the request is longer than 200 characters; else
    [moderate].  The complex keywords are looked for first, so they win when
    keywords of both sets occur.  The classification is a function of the
    request alone. *)
Theorem C2_analyze_complexity (request : string) :
  (mentions_any Planner.complex_keywords request ->
   Planner._analyze_complexity request = Planner.complex) /\
  (~ mentions_any Planner.complex_keywords request ->
   mentions_any Planner.simple_keywords request ->
   Planner._analyze_complexity request = Planner.simple) /\
  (~ mentions_any Planner.complex_keywords request ->
   ~ mentions_any Planner.simple_keywords request ->
   200 < String.length request ->
   Planner._analyze_complexity request = Planner.complex) /\
  (~ mentions_any Planner.complex_keywords request ->
   ~ mentions_any Planner.simple_keywords request ->
   String.length request <= 200 ->
   Planner._analyze_complexity request = Planner.moderate).
Proof.
  unfold Planner._analyze_complexity; cbv zeta.
  repeat split.
  - intros Hc. apply any_in_spec in Hc. now rewrite Hc.
  - intros Hc Hs. apply any_in_false in Hc. apply any_in_spec in Hs.
    now rewrite Hc, Hs.
  - intros Hc Hs Hlen. apply any_in_false in Hc. apply any_in_false in Hs.
    rewrite Hc, Hs. apply Nat.ltb_lt in Hlen. now rewrite Hlen.
  - intros Hc Hs Hlen. apply any_in_false in Hc. apply any_in_false in Hs.
    rewrite Hc, Hs. apply Nat.ltb_ge in Hlen. now rewrite Hlen.
Qed.

(** C3: the request "fix the bug in module.py" is classified [simple], which
    selects the sequential strategy, and its plan is the four debugging
    tasks.  Sequential planning takes exactly one branch for every request,
    the first that applies of: test, api, bug or fix, generic. *)
Theorem C3_fix_the_bug_plan :
  Planner.complexity (Planner.create_plan "fix the bug in module.py") = Planner.simple /\
  Planner._select_strategy Planner.simple = Planner.sequential /\
  Planner.tasks (Planner.create_plan "fix the bug in module.py") =
    ["Identify the bug location"; "Analyze root cause"; "Implement fix";
     "Verify fix works"] /\
  forall request : string,
    (mentions "test" request ->
     Planner._sequential_planning request = Planner.test_tasks) /\
    (~ mentions "test" request -> mentions "api" request ->
     Planner._sequential_planning request = Planner.api_tasks) /\
    (~ mentions "test" request -> ~ mentions "api" request ->
     mentions "bug" request \/ mentions "fix" request ->
     Planner._sequential_planning request = Planner.debug_tasks) /\
    (~ mentions "test" request -> ~ mentions "api" request ->
     ~ mentions "bug" request -> ~ mentions "fix" request ->
     Planner._sequential_planning request = Planner.generic_tasks).
Proof.
  split; [vm_compute; reflexivity|].
  split; [reflexivity|].
  split; [vm_compute; reflexivity|].
  intros request. unfold Planner._sequential_planning, mentions.
  repeat split.
  - intros Ht. apply str_in_spec in Ht. now rewrite Ht.
  - intros Ht Ha. apply str_in_false in Ht. apply str_in_spec in Ha.
    now rewrite Ht, Ha.
  - intros Ht Ha Hbf. apply str_in_false in Ht. apply str_in_false in Ha.
    rewrite Ht, Ha.
    destruct Hbf as [Hb | Hf]; apply str_in_spec in Hb || apply str_in_spec in Hf.
    + now rewrite Hb.
    + rewrite Hf. now rewrite orb_true_r.
  - intros Ht Ha Hb Hf.
    apply str_in_false in Ht. apply str_in_false in Ha.
    apply str_in_false in Hb. apply str_in_false in Hf.
    now rewrite Ht, Ha, Hb, Hf.
Qed.

(* ===================================================================== *)
(** * Dispatcher *)
(* ===================================================================== *)

(** C4: a task goes to the first handler whose keyword occurs in its
    lower-cased text, in the order test, then implement or write, then
    analyze, then fix or debug, then the generic handler; so "Write a test
    for X" goes to the test handler although it also contains "write". *)
Theorem C4_route_priority :
  (forall task : string,
     (mentions "test" task -> Executor.route task = Executor.test_handler) /\
     (~ mentions "test" task ->
      mentions "implement" task \/ mentions "write" task ->
      Executor.route task = Executor.implementation_handler) /\
     (~ mentions "test" task ->
      ~ mentions "implement" task -> ~ mentions "write" task ->
      mentions "analyze" task ->
      Executor.route task = Executor.analysis_handler) /\
     (~ mentions "test" task ->
      ~ mentions "implement" task -> ~ mentions "write" task ->
      ~ mentions "analyze" task ->
      mentions "fix" task \/ mentions "debug" task ->
      Executor.route task = Executor.debug_handler) /\
     (~ mentions "test" task ->
      ~ mentions "implement" task -> ~ mentions "write" task ->
      ~ mentions "analyze" task ->
      ~ mentions "fix" task -> ~ mentions "debug" task ->
      Executor.route task = Executor.generic_handler)) /\
  mentions "write" "Write a test for X" /\
  Executor.route "Write a test for X" = Executor.test_handler.
Proof.
  split.
  - intros task. unfold Executor.route, mentions.
    repeat split.
    + intros Ht. apply str_in_spec in Ht. now rewrite Ht.
    + intros Ht Hiw. apply str_in_false in Ht. rewrite Ht.
      destruct Hiw as [H | H]; apply str_in_spec in H; rewrite H;
        [reflexivity | now rewrite orb_true_r].
    + intros Ht Hi Hw Ha.
      apply str_in_false in Ht. apply str_in_false in Hi.
      apply str_in_false in Hw. apply str_in_spec in Ha.
      now rewrite Ht, Hi, Hw, Ha.
    + intros Ht Hi Hw Ha Hfd.
      apply str_in_false in Ht. apply str_in_false in Hi.
      apply str_in_false in Hw. apply str_in_false in Ha.
      rewrite Ht, Hi, Hw, Ha.
      destruct Hfd as [H | H]; apply str_in_spec in H; rewrite H;
        [reflexivity | now rewrite orb_true_r].
    + intros Ht Hi Hw Ha Hf Hd.
      apply str_in_false in Ht. apply str_in_false in Hi.
      apply str_in_false in Hw. apply str_in_false in Ha.
      apply str_in_false in Hf. apply str_in_false in Hd.
      now rewrite Ht, Hi, Hw, Ha, Hf, Hd.
  - split.
    + apply str_in_spec. vm_compute. reflexivity.
    + vm_compute. reflexivity.
Qed.

(* ===================================================================== *)
(** * Memory store: the recent buffer *)
(* ===================================================================== *)

Lemma deque_append_last_n (cap : nat) (l : list Memory.Interaction) (x : Memory.Interaction) :
  Memory.deque_append cap (last_n cap l) x = last_n cap (l ++ [x]).
Proof.
  unfold Memory.deque_append, last_n.
  rewrite !length_app, length_drop. cbn [length].
  destruct (Nat.ltb_spec cap (length l - (length l - cap) + 1)) as [Hfull | Hroom].
  - destruct (decide (cap = 0)) as [-> | Hpos].
    + rewrite Nat.sub_0_r, drop_all. cbn.
      rewrite drop_ge; [reflexivity | rewrite length_app; cbn; lia].
    + rewrite (drop_app l [x] (length l + 1 - cap)).
      replace (length l + 1 - cap - length l) with 0 by lia.
      rewrite drop_0.
      replace (length l + 1 - cap) with (length l - cap + 1) by lia.
      rewrite <- drop_drop.
      remember (drop (length l - cap) l) as d eqn:Hd.
      assert (length d = cap) as Hlen by (subst d; rewrite length_drop; lia).
      destruct d as [|y d]; [cbn in Hlen; lia | reflexivity].
  - replace (length l - cap) with 0 by lia.
    replace (length l + 1 - cap) with 0 by lia.
    now rewrite !drop_0.
Qed.

Lemma add_interaction_tracks (m : Memory.MemoryManager) (e : Entry) :
  buffer_tracks_log m -> buffer_tracks_log (insert_entry m e).
Proof.
  unfold buffer_tracks_log, insert_entry, Memory.add_interaction. cbn.
  intros ->. apply deque_append_last_n.
Qed.

Lemma insert_all_log (es : list Entry) (m : Memory.MemoryManager) :
  Memory.interactions (fold_left insert_entry es m)
  = Memory.interactions m ++ map interaction_of es.
Proof.
  revert m. induction es as [|e es IH]; intros m; cbn [fold_left map].
  - now rewrite app_nil_r.
  - rewrite IH. unfold insert_entry, Memory.add_interaction. cbn.
    now rewrite <- app_assoc.
Qed.

Lemma insert_all_maxlen (es : list Entry) (m : Memory.MemoryManager) :
  Memory.maxlen (fold_left insert_entry es m) = Memory.maxlen m.
Proof.
  revert m. induction es as [|e es IH]; intros m; cbn [fold_left]; [reflexivity|].
  now rewrite IH.
Qed.

Lemma insert_all_tracks (es : list Entry) (m : Memory.MemoryManager) :
  buffer_tracks_log m -> buffer_tracks_log (fold_left insert_entry es m).
Proof.
  revert m. induction es as [|e es IH]; intros m Hm; cbn [fold_left]; [exact Hm|].
  apply IH, add_interaction_tracks, Hm.
Qed.

(** Asking for as many entries as the buffer can hold returns the buffer. *)
Lemma get_recent_context_all (m : Memory.MemoryManager) :
  length (Memory.short_term m) <= Memory.maxlen m ->
  Memory.get_recent_context (Z.of_nat (Memory.maxlen m)) m = Memory.short_term m.
Proof.
  intros Hle. unfold Memory.get_recent_context, Py.slice_from.
  destruct (Z.ltb_spec (- Z.of_nat (Memory.maxlen m)) 0) as [Hneg | Hzero].
  - rewrite Z.max_r by lia. apply drop_0.
  - rewrite Z.min_l by lia.
    replace (Z.to_nat (- Z.of_nat (Memory.maxlen m))) with 0 by lia. apply drop_0.
Qed.

(** C8: after [capacity + k] insertions into a new store of that capacity,
    asking for [capacity] recent entries returns the last [capacity]
    insertions in insertion order (the first [k] are gone from the buffer),
    and the log holds all [capacity + k]. *)
Theorem C8_recent_buffer_bound (capacity k : nat) (entries : list Entry) :
  length entries = capacity + k ->
  let m := fold_left insert_entry entries (Memory.fresh capacity) in
  Memory.get_recent_context (Z.of_nat capacity) m = drop k (map interaction_of entries) /\
  Memory.short_term m = drop k (map interaction_of entries) /\
  length (Memory.get_recent_context (Z.of_nat capacity) m) = capacity /\
  Memory.interactions m = map interaction_of entries /\
  length (Memory.interactions m) = capacity + k.
Proof.
  intros Hlen m.
  assert (Memory.maxlen m = capacity) as Hcap by apply insert_all_maxlen.
  assert (Memory.interactions m = map interaction_of entries) as Hlog
    by (unfold m; now rewrite insert_all_log).
  assert (Memory.short_term m = drop k (map interaction_of entries)) as Hbuf.
  { assert (buffer_tracks_log m) as Ht by (apply insert_all_tracks; reflexivity).
    unfold buffer_tracks_log, last_n in Ht.
    rewrite Ht, Hcap, Hlog, length_map, Hlen. f_equal. lia. }
  assert (length (Memory.short_term m) = capacity) as Hbuflen
    by (rewrite Hbuf, length_drop, length_map; lia).
  assert (Memory.get_recent_context (Z.of_nat capacity) m = Memory.short_term m) as Hget
    by (rewrite <- Hcap; apply get_recent_context_all; lia).
  repeat split.
  - now rewrite Hget.
  - exact Hbuf.
  - now rewrite Hget.
  - exact Hlog.
  - now rewrite Hlog, length_map.
Qed.

(* ===================================================================== *)
(** * Memory store: extraction of facts *)
(* ===================================================================== *)

Lemma error_count_insert_other (k : string) (v : Memory.Fact) (m : gmap string Memory.Fact) :
  Py.startswith k "error_" = false ->
  Memory.error_count (<[k := v]> m) = Memory.error_count m.
Proof.
  intros Hk. unfold Memory.error_count.
  rewrite map_filter_insert_not; [reflexivity|].
  intros y Hy. change (Is_true (Py.startswith k "error_")) in Hy.
  rewrite Hk in Hy. exact Hy.
Qed.

Lemma error_count_fold_other (key : string -> string) (v : Memory.Fact)
      (xs : list string) (m : gmap string Memory.Fact) :
  (forall x, Py.startswith (key x) "error_" = false) ->
  Memory.error_count (fold_left (fun m x => <[key x := v]> m) xs m) = Memory.error_count m.
Proof.
  intros Hkey. revert m. induction xs as [|x xs IH]; intros m; cbn [fold_left].
  - reflexivity.
  - rewrite IH. apply error_count_insert_other, Hkey.
Qed.

Lemma extract_error_branch (i : Memory.Interaction) (long_term : gmap string Memory.Fact) :
  mentions "error" (Memory.content i) \/ mentions "exception" (Memory.content i) ->
  Memory._extract_to_long_term i long_term =
  <["error_" +:+ Py.str_of_nat (Memory.error_count (before_error_fact i long_term))
    := Memory.ErrorFact (Memory.timestamp i) (Py.take 200 (Memory.content i))]>
    (before_error_fact i long_term).
Proof.
  intros H. unfold Memory._extract_to_long_term; cbv zeta.
  fold (before_error_fact i long_term).
  destruct H as [H | H]; apply str_in_spec in H; rewrite H;
    [reflexivity | now rewrite orb_true_r].
Qed.

Lemma error_count_before_error_fact (i : Memory.Interaction)
      (long_term : gmap string Memory.Fact) :
  Memory.error_count (before_error_fact i long_term) = Memory.error_count long_term.
Proof.
  unfold before_error_fact; cbv zeta.
  destruct (Py.str_in "def " _ || Py.str_in "class " _);
    destruct (Py.str_in "/" _ || Py.str_in "\" _);
    rewrite ?(error_count_fold_other (fun x => "class_" +:+ x)),
            ?(error_count_fold_other (fun x => "function_" +:+ x)),
            ?(error_count_fold_other (fun x => "file_" +:+ x));
    reflexivity || (intros x; reflexivity).
Qed.

(** C9: an interaction whose content contains "error" or "exception" in any
    letter case gets a fact under the key [error_<k>], [k] being the number
    of [error_] keys in the store at that moment (the file and definition
    facts of the same interaction do not change that number).  In
    particular, on a store without error facts,
    [add_interaction("user", "see src/app.py for the error")] leaves a fact
    under [file_src/app.py] and one under [error_0]. *)
Theorem C9_error_and_file_facts :
  (forall (m : Memory.MemoryManager) (now role content : string)
          (metadata : option (gmap string Value)),
     mentions "error" content \/ mentions "exception" content ->
     let k := Memory.error_count (Memory.long_term m) in
     let i := {| Memory.timestamp := now; Memory.role := role;
                 Memory.content := content; Memory.metadata := default ∅ metadata |} in
     Memory.error_count (before_error_fact i (Memory.long_term m)) = k /\
     Memory.long_term (Memory.add_interaction now role content metadata m)
       !! ("error_" +:+ Py.str_of_nat k)
     = Some (Memory.ErrorFact now (Py.take 200 content))) /\
  (forall (m : Memory.MemoryManager) (now : string),
     Memory.error_count (Memory.long_term m) = 0 ->
     let m' := Memory.add_interaction now "user" app_py_request None m in
     Memory.long_term m' !! "file_src/app.py"
     = Some (Memory.FileFact now app_py_request) /\
     Memory.long_term m' !! "error_0"
     = Some (Memory.ErrorFact now app_py_request)) /\
  (forall now : string,
     let m' := Memory.add_interaction now "user" app_py_request None (Memory.fresh 100) in
     Memory.long_term m' !! "file_src/app.py" = Some (Memory.FileFact now app_py_request) /\
     Memory.long_term m' !! "error_0" = Some (Memory.ErrorFact now app_py_request)).
Proof.
  assert (forall (m : Memory.MemoryManager) (now : string),
     Memory.error_count (Memory.long_term m) = 0 ->
     let m' := Memory.add_interaction now "user" app_py_request None m in
     Memory.long_term m' !! "file_src/app.py"
     = Some (Memory.FileFact now app_py_request) /\
     Memory.long_term m' !! "error_0"
     = Some (Memory.ErrorFact now app_py_request)) as Hscenario.
  { intros m now Hzero m'. unfold m', Memory.add_interaction.
    cbn [Memory.long_term].
    rewrite extract_error_branch
      by (left; apply str_in_spec; vm_compute; reflexivity).
    rewrite error_count_before_error_fact, Hzero.
    cbn [Memory.content Memory.timestamp].
    replace (Py.take 200 app_py_request) with app_py_request by (vm_compute; reflexivity).
    change ("error_" +:+ Py.str_of_nat 0) with "error_0".
    assert (before_error_fact
              {| Memory.timestamp := now; Memory.role := "user";
                 Memory.content := app_py_request; Memory.metadata := default ∅ None |}
              (Memory.long_term m)
            = <["file_src/app.py" := Memory.FileFact now app_py_request]> (Memory.long_term m))
      as ->.
    { unfold before_error_fact. cbn [Memory.content Memory.timestamp].
      replace (Py.str_in "/" app_py_request || Py.str_in "\" app_py_request) with true
        by (vm_compute; reflexivity).
      replace (Py.str_in "def " app_py_request || Py.str_in "class " app_py_request)
        with false by (vm_compute; reflexivity).
      replace (Re.findall Re.path_re app_py_request) with ["src/app.py"]
        by (vm_compute; reflexivity).
      replace (Py.take 100 app_py_request) with app_py_request by (vm_compute; reflexivity).
      reflexivity. }
    split.
    - rewrite lookup_insert_ne by discriminate. apply lookup_insert_eq.
    - apply lookup_insert_eq. }
  split; [|split].
  - intros m now role content metadata H k i. split.
    + apply error_count_before_error_fact.
    + unfold Memory.add_interaction. cbn [Memory.long_term].
      rewrite (extract_error_branch i) by exact H.
      rewrite error_count_before_error_fact. apply lookup_insert_eq.
  - exact Hscenario.
  - intros now. apply Hscenario. reflexivity.
Qed.

(* ===================================================================== *)
(** * Memory store: save and load *)
(* ===================================================================== *)

Section SaveLoad.

Variable Blob : Type.
Variable pickle_dump : Memory.MemoryData -> Blob.
Variable pickle_load : Blob -> option Memory.MemoryData.

(** Unpickling what was pickled gives the snapshot back. *)
Hypothesis pickle_round_trip : forall d, pickle_load (pickle_dump d) = Some d.

(** Saving a store and loading the file, into the same store or into any
    other store [m0] configured with the same path, restores the log and the
    facts as they were saved, and pushes the tail of the log into the buffer
    of the loading store. *)
Lemma load_after_save (now path : string) (m m0 : Memory.MemoryManager)
      (disk : gmap string Blob) :
  Memory.persistence_path m = Some path ->
  Memory.persistence_path m0 = Some path ->
  let m' := Memory.load_memory Blob pickle_load m0
              (Memory.save_memory Blob pickle_dump now m disk) in
  Memory.interactions m' = Memory.interactions m /\
  Memory.long_term m' = Memory.long_term m /\
  Memory.short_term m' =
    fold_left (Memory.deque_append (Memory.maxlen m0))
              (Py.slice_from (- Z.of_nat (Memory.maxlen m0)) (Memory.interactions m))
              (Memory.short_term m0).
Proof.
  intros Hm Hm0. unfold Memory.load_memory, Memory.save_memory.
  rewrite Hm, Hm0, lookup_insert_eq, pickle_round_trip. cbn. auto.
Qed.

Lemma load_memory_maxlen (m : Memory.MemoryManager) (disk : gmap string Blob) :
  Memory.maxlen (Memory.load_memory Blob pickle_load m disk) = Memory.maxlen m.
Proof.
  unfold Memory.load_memory.
  destruct (Memory.persistence_path m); [|reflexivity].
  destruct (disk !! _); [|reflexivity].
  destruct (pickle_load _); reflexivity.
Qed.

Lemma fold_deque_append_last_n (cap : nat) (xs pre : list Memory.Interaction) :
  fold_left (Memory.deque_append cap) xs (last_n cap pre) = last_n cap (pre ++ xs).
Proof.
  revert pre. induction xs as [|x xs IH]; intros pre; cbn [fold_left].
  - now rewrite app_nil_r.
  - rewrite deque_append_last_n, IH, <- app_assoc. reflexivity.
Qed.

Lemma last_n_slice (cap : nat) (l : list Memory.Interaction) :
  last_n cap (Py.slice_from (- Z.of_nat cap) l) = last_n cap l.
Proof.
  unfold Py.slice_from, last_n.
  destruct (Z.ltb_spec (- Z.of_nat cap) 0) as [Hneg | Hzero].
  - rewrite length_drop, drop_drop. f_equal. lia.
  - assert (cap = 0) as -> by lia. cbn.
    rewrite Z.min_l by lia. cbn. rewrite drop_0. reflexivity.
Qed.

(** Loading into a store whose buffer is empty, as [__init__] does, leaves
    the last [maxlen] entries of the restored log in the buffer. *)
Lemma load_into_empty_buffer (now path : string) (m m0 : Memory.MemoryManager)
      (disk : gmap string Blob) :
  Memory.persistence_path m = Some path ->
  Memory.persistence_path m0 = Some path ->
  Memory.short_term m0 = [] ->
  let m' := Memory.load_memory Blob pickle_load m0
              (Memory.save_memory Blob pickle_dump now m disk) in
  Memory.short_term m' = last_n (Memory.maxlen m0) (Memory.interactions m').
Proof.
  intros Hm Hm0 Hempty m'.
  destruct (load_after_save now path m m0 disk Hm Hm0) as (Hlog & _ & Hbuf).
  fold m' in Hlog, Hbuf. rewrite Hbuf, Hlog, Hempty.
  change (@nil Memory.Interaction) with (last_n (Memory.maxlen m0) (@nil Memory.Interaction)).
  rewrite fold_deque_append_last_n. cbn [app]. apply last_n_slice.
Qed.

End SaveLoad.

(** C7 on a store of capacity 2 with the path [memory.pkl], no file there
    yet, and one interaction in it: after [save_memory()] and
    [load_memory()] the log and the facts are the saved ones, and the recent
    buffer holds that interaction twice, which is not the tail of the
    restored log. *)
Theorem C7_save_load_duplicates_buffer
        (Blob : Type) (pickle_dump : Memory.MemoryData -> Blob)
        (pickle_load : Blob -> option Memory.MemoryData) :
  (forall d, pickle_load (pickle_dump d) = Some d) ->
  let m := insert_entry (Memory.init Blob pickle_load 2 (Some "memory.pkl") ∅) hello_entry in
  let disk := Memory.save_memory Blob pickle_dump "2024-01-01T00:00:01" m ∅ in
  let m' := Memory.load_memory Blob pickle_load m disk in
  Memory.interactions m' = Memory.interactions m /\
  Memory.long_term m' = Memory.long_term m /\
  Memory.interactions m' = [interaction_of hello_entry] /\
  Memory.short_term m = [interaction_of hello_entry] /\
  Memory.short_term m' = [interaction_of hello_entry; interaction_of hello_entry] /\
  Memory.short_term m' <> last_n (Memory.maxlen m') (Memory.interactions m').
Proof.
  intros Hrt m disk m'.
  assert (Memory.persistence_path m = Some "memory.pkl") as Hpath by reflexivity.
  destruct (load_after_save Blob pickle_dump pickle_load Hrt
              "2024-01-01T00:00:01" "memory.pkl" m m ∅ Hpath Hpath) as (Hlog & Hfacts & Hbuf).
  fold disk in Hlog, Hfacts, Hbuf. fold m' in Hlog, Hfacts, Hbuf.
  assert (Memory.interactions m = [interaction_of hello_entry]) as Hm by reflexivity.
  assert (Memory.short_term m' = [interaction_of hello_entry; interaction_of hello_entry])
    as Hbuf' by (rewrite Hbuf, Hm; reflexivity).
  split; [exact Hlog|]. split; [exact Hfacts|].
  split; [rewrite Hlog; exact Hm|]. split; [reflexivity|].
  split; [exact Hbuf'|].
  unfold m' at 2. rewrite load_memory_maxlen, Hbuf', Hlog, Hm. discriminate.
Qed.

Lemma C7_save_load_duplicates_buffer_witness :
  let Blob := Memory.MemoryData in
  let pickle_dump := fun d : Memory.MemoryData => d in
  let pickle_load := fun d : Memory.MemoryData => Some d in
  let m := insert_entry (Memory.init Blob pickle_load 2 (Some "memory.pkl") ∅) hello_entry in
  let disk := Memory.save_memory Blob pickle_dump "2024-01-01T00:00:01" m ∅ in
  let m' := Memory.load_memory Blob pickle_load m disk in
  Memory.interactions m' = Memory.interactions m /\
  Memory.long_term m' = Memory.long_term m /\
  Memory.interactions m' = [interaction_of hello_entry] /\
  Memory.short_term m = [interaction_of hello_entry] /\
  Memory.short_term m' = [interaction_of hello_entry; interaction_of hello_entry] /\
  Memory.short_term m' <> last_n (Memory.maxlen m') (Memory.interactions m').
Proof.
  apply (C7_save_load_duplicates_buffer Memory.MemoryData (fun d => d) (fun d => Some d)).
  intros d. reflexivity.
Defined.

(* ===================================================================== *)
(** * Orchestrator: synthesis *)
(* ===================================================================== *)

Lemma synthesize_fold (results : list TaskResult) (parts : list string)
      (changes : list CodeChange) :
  fold_left Core.synthesize_step results (parts, changes)
  = (parts ++ map summary_of (successful results),
     changes ++ concat (map changes_of (successful results))).
Proof.
  revert parts changes.
  induction results as [|r results IH]; intros parts changes; cbn [fold_left].
  - cbn. now rewrite !app_nil_r.
  - unfold Core.synthesize_step at 2. unfold successful. cbn [List.filter].
    destruct (Task.success r).
    + rewrite IH. cbn [map concat]. unfold successful, summary_of, changes_of.
      destruct (Task.code_changes r); cbn [default];
        now rewrite <- ?app_assoc, ?app_nil_l.
    + apply IH.
Qed.

Lemma count_successful_fold (results : list TaskResult) (n : nat) :
  fold_left (fun n r => if Task.success r then n + 1 else n) results n
  = n + length (successful results).
Proof.
  revert n. induction results as [|r results IH]; intros n; cbn [fold_left].
  - cbn. lia.
  - rewrite IH. unfold successful. cbn [List.filter].
    destruct (Task.success r); cbn [length]; lia.
Qed.

Lemma synthesize_total (results : list TaskResult) :
  Core.total_tasks (Core._synthesize_response results) = length results.
Proof.
  unfold Core._synthesize_response. rewrite synthesize_fold. reflexivity.
Qed.

(** C6 as stated fails: the change record of a failed result is not in the
    synthesized [code_changes]. *)
Lemma C6_failed_result_changes_left_out :
  Core.s_code_changes (Core._synthesize_response [rejected_implementation])
  <> code_changes_of_every_result [rejected_implementation].
Proof. vm_compute. discriminate. Qed.

(** C6, amended: the summary is the newline-join of the summaries of the
    successful results in task order (a successful result without a summary
    counts as "Task completed"); the code changes are the concatenation, in
    task order and without deduplication, of the change records of the
    successful results only; [total_tasks] is the number of results and
    [successful_tasks] the number of successful ones. *)
Theorem C6_synthesize_response (results : list TaskResult) :
  let response := Core._synthesize_response results in
  Core.s_summary response = Py.join Py.newline (map summary_of (successful results)) /\
  Core.s_code_changes response = concat (map changes_of (successful results)) /\
  Core.total_tasks response = length results /\
  Core.successful_tasks response = length (successful results).
Proof.
  unfold Core._synthesize_response.
  rewrite synthesize_fold, count_successful_fold. cbn. auto.
Qed.

(* ===================================================================== *)
(** * Orchestrator: the task loop *)
(* ===================================================================== *)

Lemma list_remove_length (x : string) (l rest : list string) :
  Py.list_remove x l = Some rest -> length l = S (length rest).
Proof.
  revert rest. induction l as [|y l IH]; intros rest; cbn [Py.list_remove].
  - discriminate.
  - destruct (String.eqb y x).
    + intros [= <-]. reflexivity.
    + destruct (Py.list_remove x l) as [r|]; [|discriminate].
      intros [= <-]. cbn [length]. f_equal. now apply IH.
Qed.

Lemma list_remove_elem (x : string) (l : list string) :
  x ∈ l -> is_Some (Py.list_remove x l).
Proof.
  induction l as [|y l IH]; intros Hin; cbn [Py.list_remove].
  - inversion Hin.
  - destruct (String.eqb_spec y x) as [-> | Hne]; [eauto|].
    apply elem_of_cons in Hin. destruct Hin as [-> | Hin]; [congruence|].
    destruct (IH Hin) as [r ->]. eauto.
Qed.

Lemma list_remove_subseteq (x : string) (l rest : list string) :
  Py.list_remove x l = Some rest -> rest ⊆ l.
Proof.
  revert rest. induction l as [|y l IH]; intros rest; cbn [Py.list_remove].
  - discriminate.
  - destruct (String.eqb y x).
    + intros [= <-]. set_solver.
    + destruct (Py.list_remove x l) as [r|]; [|discriminate].
      intros [= <-]. specialize (IH r eq_refl).
      intros z Hz. apply elem_of_cons in Hz. apply elem_of_cons.
      destruct Hz as [-> | Hz]; [left; reflexivity | right; apply IH, Hz].
Qed.

(** Without duplicates, [remove] takes out the very element the iterator
    stands on. *)
Lemma list_remove_middle (x : string) (before after : list string) :
  NoDup (before ++ x :: after) ->
  Py.list_remove x (before ++ x :: after) = Some (before ++ after).
Proof.
  induction before as [|y before IH]; intros Hnd; cbn [app Py.list_remove].
  - now rewrite String.eqb_refl.
  - apply NoDup_cons in Hnd. destruct Hnd as [Hy Hnd].
    destruct (String.eqb_spec y x) as [-> | Hne].
    + exfalso. apply Hy. set_solver.
    + now rewrite IH.
Qed.

Lemma deref_insert_eq (h : list (list string)) (l : Core.loc) (v : list string) :
  l < length h -> Core.deref (<[l := v]> h) l = v.
Proof. intros Hl. unfold Core.deref. now rewrite list_lookup_insert_eq. Qed.

Lemma deref_insert_ne (h : list (list string)) (l l' : Core.loc) (v : list string) :
  l <> l' -> Core.deref (<[l := v]> h) l' = Core.deref h l'.
Proof. intros Hl. unfold Core.deref. now rewrite list_lookup_insert_ne. Qed.

Lemma deref_app_l (h more : list (list string)) (l : Core.loc) :
  l < length h -> Core.deref (h ++ more) l = Core.deref h l.
Proof. intros Hl. unfold Core.deref. now rewrite lookup_app_l. Qed.

Lemma deref_app_new (h : list (list string)) (v : list string) :
  Core.deref (h ++ [v]) (length h) = v.
Proof. unfold Core.deref. now rewrite list_lookup_middle. Qed.

Section Loop.

Variable World : Type.
Variable clock : nat -> string.
Variable executor : string -> gmap string Value -> World -> Exc TaskResult * World.

Abbreviation agent := (Core.DevonAgent World).
Abbreviation done_of a := (Core.completed_tasks (Core.state World a)).
Abbreviation pending_of a := (Core.pending_tasks (Core.state World a)).
Abbreviation heap_of a := (Core.heap World a).
Abbreviation run_task := (Core.run_task World clock executor).
Abbreviation task_loop := (Core.task_loop World clock executor).

(** One turn on a task that is in the pending list: either the dispatcher
    raised and no list changed, or the task moved from the pending list to
    the end of the completed list. *)
Lemma run_task_turn (p : Core.loc) (task : string) (a a' : agent) (out : Exc TaskResult) :
  in_loop World p a ->
  task ∈ Core.deref (heap_of a) p ->
  run_task task a = (out, a') ->
  in_loop World p a' /\ done_of a' = done_of a /\
  length (heap_of a') = length (heap_of a) /\
  (forall l, l <> p -> l <> done_of a ->
     Core.deref (heap_of a') l = Core.deref (heap_of a) l) /\
  match out with
  | inl _ =>
      Core.deref (heap_of a') p = Core.deref (heap_of a) p /\
      Core.deref (heap_of a') (done_of a) = Core.deref (heap_of a) (done_of a)
  | inr result =>
      Py.list_remove task (Core.deref (heap_of a) p) = Some (Core.deref (heap_of a') p) /\
      Core.deref (heap_of a') (done_of a) = Core.deref (heap_of a) (done_of a) ++ [task] /\
      (exists w, executor task (Core.context (Core.state World a)) (Core.world World a)
                 = (inr result, w) /\ Core.world World a' = w) /\
      Core.context (Core.state World a')
      = default ∅ (Task.context result) ∪ Core.context (Core.state World a)
  end.
Proof.
  intros (Hp & Hne & Hdone & Hplen) Hin.
  unfold Core.run_task, Core.set_current_task, Core.append_completed,
    Core.remove_pending, Core.update_context, Core.remember,
    Core.with_state, Core.with_heap, Core.with_world, in_loop.
  cbn [Core.state Core.heap Core.world Core.context
       Core.completed_tasks Core.pending_tasks].
  destruct (executor task _ _) as [[e | result] w] eqn:Hexec.
  - intros [= <- <-].
    cbn [Core.state Core.heap Core.world Core.context
         Core.completed_tasks Core.pending_tasks].
    auto 10.
  - rewrite Hp. rewrite deref_insert_ne by exact Hne.
    destruct (list_remove_elem task _ Hin) as [rest Hrest]. rewrite Hrest.
    intros [= <- <-].
    cbn [Core.state Core.heap Core.world Core.context
         Core.completed_tasks Core.pending_tasks].
    rewrite !length_insert.
    repeat split; try assumption.
    + intros l Hl1 Hl2. rewrite !deref_insert_ne by congruence. reflexivity.
    + rewrite deref_insert_eq by (now rewrite length_insert). reflexivity.
    + rewrite deref_insert_ne by congruence. now rewrite deref_insert_eq.
    + exists w. auto.
Qed.

(** The loop always ends within its fuel, leaves through the end of the
    iterator or through an exception of the dispatcher, and only ever
    appends to the completed list. *)
Lemma task_loop_appends (p : Core.loc) (fuel : nat) :
  forall (i : nat) (a : agent) (results : list TaskResult),
    in_loop World p a ->
    length (Core.deref (heap_of a) p) - i < fuel ->
    exists out a' new,
      task_loop fuel p i a results = Some (out, a') /\
      in_loop World p a' /\ done_of a' = done_of a /\
      Core.deref (heap_of a') (done_of a) = Core.deref (heap_of a) (done_of a) ++ new /\
      new ⊆ Core.deref (heap_of a) p /\
      (forall rs, out = inr rs -> length rs = length results + length new).
Proof.
  induction fuel as [|fuel IH]; intros i a results Hinv Hfuel; [lia|].
  cbn [Core.task_loop].
  destruct (Core.deref (heap_of a) p !! i) as [task|] eqn:Hlook.
  - assert (task ∈ Core.deref (heap_of a) p) as Hin
      by (apply list_elem_of_lookup; eauto).
    apply lookup_lt_Some in Hlook.
    destruct (run_task task a) as [[e | result] a1] eqn:Hrun.
    + destruct (run_task_turn p task a a1 (inl e) Hinv Hin Hrun)
        as (Hinv1 & Hdone1 & _ & _ & _ & Hsame).
      exists (inl e), a1, []. rewrite app_nil_r.
      repeat split; try assumption; try apply Hinv1; [set_solver | discriminate].
    + destruct (run_task_turn p task a a1 (inr result) Hinv Hin Hrun)
        as (Hinv1 & Hdone1 & _ & _ & Hrem & Happ & _).
      pose proof (list_remove_length _ _ _ Hrem) as Hlen.
      pose proof (list_remove_subseteq _ _ _ Hrem) as Hsub.
      destruct (IH (S i) a1 (results ++ [result]) Hinv1 ltac:(lia))
        as (out & a' & new & Hloop & Hinv' & Hdone' & Hnew & Hnewin & Hres).
      exists out, a', (task :: new). rewrite Hloop.
      repeat split; try apply Hinv'; try congruence.
      * rewrite Hdone1 in Hnew. rewrite Hnew, Happ, <- app_assoc. reflexivity.
      * intros z Hz. apply elem_of_cons in Hz.
        destruct Hz as [-> | Hz]; [exact Hin | apply Hsub, Hnewin, Hz].
      * intros rs Hrs. rewrite (Hres rs Hrs), length_app. cbn. lia.
  - exists (inr results), a, []. rewrite app_nil_r.
    repeat split; try apply Hinv; [set_solver | intros rs [= <-]; cbn; lia].
Qed.

End Loop.

(* ===================================================================== *)
(** * Orchestrator: the agent with its own planner and dispatcher *)
(* ===================================================================== *)

Lemma run_tasks_length {World : Type}
      (exec : string -> gmap string Value -> World -> TaskResult * World)
      (ts : list string) (ctx : gmap string Value) (w : World) :
  length (fst (fst (run_tasks exec ts ctx w))) = length ts.
Proof.
  revert ctx w. induction ts as [|t ts IH]; intros ctx w; cbn; [reflexivity|].
  now rewrite IH.
Qed.

Lemma evens_sublist (l : list string) : evens l `sublist_of` l.
Proof.
  induction l as [l IH] using (induction_ltof1 _ (@length string)); unfold ltof in IH.
  destruct l as [|y [|z l]]; cbn.
  - constructor.
  - reflexivity.
  - apply sublist_skip, sublist_cons, IH. cbn. lia.
Qed.

Lemma evens_length (l : list string) : length (evens l) = Nat.div2 (S (length l)).
Proof.
  induction l as [l IH] using (induction_ltof1 _ (@length string)); unfold ltof in IH.
  destruct l as [|y [|z l]]; cbn [evens length]; try reflexivity.
  rewrite IH by (cbn; lia). reflexivity.
Qed.

Lemma NoDup_drop_middle (before after : list string) (x : string) :
  NoDup (before ++ x :: after) -> NoDup (before ++ after).
Proof.
  intros H. eapply sublist_NoDup; [exact H|].
  apply sublist_app; [reflexivity | apply sublist_cons; reflexivity].
Qed.

Section WiredLoop.

Variable World : Type.
Variable clock : nat -> string.
Variable _execute_test_task : string -> gmap string Value -> World -> Exc TaskResult * World.
Variable _execute_implementation_task : string -> gmap string Value -> World -> Exc TaskResult * World.
Variable _execute_analysis_task : string -> gmap string Value -> World -> Exc TaskResult * World.
Variable _execute_debug_task : string -> gmap string Value -> World -> Exc TaskResult * World.

Abbreviation exec :=
  (Executor.execute_task World _execute_test_task _execute_implementation_task
                         _execute_analysis_task _execute_debug_task).
Abbreviation the_executor :=
  (Core.the_executor World _execute_test_task _execute_implementation_task
                     _execute_analysis_task _execute_debug_task).
Abbreviation wired_loop := (Core.task_loop World clock the_executor).
Abbreviation wired_request :=
  (Core.agent_process_request World clock _execute_test_task _execute_implementation_task
                              _execute_analysis_task _execute_debug_task).

Lemma the_executor_returns (task : string) (ctx : gmap string Value) (w : World) :
  the_executor task ctx w = (inr (fst (exec task ctx w)), snd (exec task ctx w)).
Proof. unfold Core.the_executor. now destruct (exec task ctx w). Qed.

(** The agent's own dispatcher never raises, and [remove] finds the task
    the iterator has just read: a turn of the loop always yields a result. *)
Lemma wired_run_task_returns (p : Core.loc) (task : string) (a : Core.DevonAgent World) :
  in_loop World p a ->
  task ∈ Core.deref (Core.heap World a) p ->
  exists r a', Core.run_task World clock the_executor task a = (inr r, a').
Proof.
  intros (Hp & Hne & Hdone & Hplen) Hin.
  unfold Core.run_task, Core.set_current_task, Core.append_completed,
    Core.remove_pending, Core.with_state, Core.with_heap, Core.with_world.
  cbn [Core.state Core.heap Core.world Core.context
       Core.completed_tasks Core.pending_tasks].
  rewrite the_executor_returns, Hp, deref_insert_ne by exact Hne.
  destruct (list_remove_elem task _ Hin) as [rest ->]. eauto.
Qed.

(** On a list without duplicates that the iterator shares with
    [pending_tasks], the loop dispatches the tasks at every other position:
    removing the current task shifts the next one under the index that has
    just been passed. *)
Lemma wired_loop_every_other (p : Core.loc) (fuel : nat) :
  forall (before rest : list string) (a : Core.DevonAgent World) (results : list TaskResult),
    in_loop World p a ->
    Core.deref (Core.heap World a) p = before ++ rest ->
    NoDup (before ++ rest) ->
    length rest < fuel ->
    let done := Core.completed_tasks (Core.state World a) in
    let out := run_tasks exec (evens rest) (Core.context (Core.state World a))
                         (Core.world World a) in
    exists a',
      wired_loop fuel p (length before) a results = Some (inr (results ++ fst (fst out)), a') /\
      in_loop World p a' /\
      Core.completed_tasks (Core.state World a') = done /\
      length (Core.heap World a') = length (Core.heap World a) /\
      Core.deref (Core.heap World a') done = Core.deref (Core.heap World a) done ++ evens rest /\
      Core.deref (Core.heap World a') p = before ++ odds rest /\
      Core.context (Core.state World a') = snd (fst out) /\
      Core.world World a' = snd out.
Proof.
  induction fuel as [|fuel IH]; intros before rest a results Hinv Hlist Hnd Hfuel; [lia|].
  cbn zeta. cbn [Core.task_loop]. rewrite Hlist.
  destruct rest as [|t rest].
  - rewrite lookup_ge_None_2 by (rewrite length_app; cbn; lia).
    rewrite app_nil_r in Hlist.
    exists a. cbn. rewrite !app_nil_r. repeat split; try apply Hinv; auto.
  - rewrite list_lookup_middle by reflexivity.
    destruct (Core.run_task World clock the_executor t a) as [out1 a1] eqn:Hrun.
    assert (t ∈ Core.deref (Core.heap World a) p) as Hin by (rewrite Hlist; set_solver).
    pose proof (run_task_turn World clock the_executor p t a a1 out1 Hinv Hin Hrun)
      as (Hinv1 & Hdone1 & Hlen1 & _ & Hout).
    destruct out1 as [e | r].
    { destruct (wired_run_task_returns p t a Hinv Hin) as (r & a2 & Hret).
      rewrite Hret in Hrun. discriminate. }
    destruct Hout as (Hrem & Happ & (w1 & Hexec & Hw1) & Hctx).
    rewrite the_executor_returns in Hexec. injection Hexec as Hr Hw.
    rewrite Hlist, list_remove_middle in Hrem by exact Hnd.
    injection Hrem as Hrem. symmetry in Hrem.
    apply NoDup_drop_middle in Hnd.
    destruct rest as [|s rest].
    + (* the task was the last one: the iterator is exhausted next *)
      destruct fuel as [|fuel]; [cbn in Hfuel; lia|].
      cbn [Core.task_loop]. rewrite Hrem, app_nil_r.
      rewrite lookup_ge_None_2 by lia.
      exists a1. cbn [evens odds run_tasks fst snd].
      rewrite Hr. rewrite app_nil_r in Hrem.
      repeat split; try apply Hinv1; try congruence.
      rewrite app_nil_r. exact Hrem.
    + (* the next task slides under the index: it is skipped *)
      destruct (IH (before ++ [s]) rest a1 (results ++ [r]) Hinv1)
        as (a' & Hloop & Hinv' & Hdone' & Hlen' & Hcompleted & Hpending & Hctx' & Hw');
        try (rewrite <- app_assoc; assumption); [cbn in Hfuel; lia|].
      rewrite length_app in Hloop. cbn [length] in Hloop.
      rewrite Nat.add_1_r in Hloop.
      rewrite Hctx, Hw1 in Hloop, Hctx', Hw'.
      rewrite Hdone1 in Hcompleted, Hdone'.
      exists a'. cbn [evens odds run_tasks fst snd]. rewrite Hr, Hw.
      split; [rewrite Hloop, <- app_assoc; reflexivity|].
      split; [exact Hinv'|]. split; [exact Hdone'|].
      split; [congruence|].
      split; [rewrite Hcompleted, Happ, <- app_assoc; reflexivity|].
      split; [rewrite Hpending, <- app_assoc; reflexivity|].
      split; assumption.
Qed.

End WiredLoop.

(** Every plan the planner makes is free of duplicates. *)
Lemma plan_NoDup (request : string) : NoDup (Planner.tasks (Planner.create_plan request)).
Proof.
  unfold Planner.create_plan, Planner._analyze_complexity, Planner._parallel_planning,
    Planner._sequential_planning.
  cbn [Planner.tasks].
  repeat match goal with
         | |- context [if ?b then _ else _] => destruct b
         end;
    apply (bool_decide_unpack _); vm_compute; reflexivity.
Qed.

(** A plan has three, four or eleven tasks. *)
Lemma plan_length (request : string) :
  let n := length (Planner.tasks (Planner.create_plan request)) in
  n = 3 \/ n = 4 \/ n = 11.
Proof.
  unfold Planner.create_plan, Planner._analyze_complexity, Planner._parallel_planning,
    Planner._sequential_planning.
  cbn [Planner.tasks].
  repeat match goal with
         | |- context [if ?b then _ else _] => destruct b
         end;
    vm_compute; auto.
Qed.

Section WiredRequest.

Variable World : Type.
Variable clock : nat -> string.
Variable _execute_test_task : string -> gmap string Value -> World -> Exc TaskResult * World.
Variable _execute_implementation_task : string -> gmap string Value -> World -> Exc TaskResult * World.
Variable _execute_analysis_task : string -> gmap string Value -> World -> Exc TaskResult * World.
Variable _execute_debug_task : string -> gmap string Value -> World -> Exc TaskResult * World.

Abbreviation exec' :=
  (Executor.execute_task World _execute_test_task _execute_implementation_task
                         _execute_analysis_task _execute_debug_task).
Abbreviation wired_request' :=
  (Core.agent_process_request World clock _execute_test_task _execute_implementation_task
                              _execute_analysis_task _execute_debug_task).

(** A request to the agent always succeeds, and dispatches the tasks at the
    even positions of its plan only; the tasks at the odd positions stay in
    the pending list. *)
Lemma wired_request_every_other (request : string) (a : Core.DevonAgent World) :
  well_formed World a ->
  let ts := Planner.tasks (Planner.create_plan request) in
  let done := Core.completed_tasks (Core.state World a) in
  let out := run_tasks exec' (evens ts) (Core.context (Core.state World a))
                       (Core.world World a) in
  exists a',
    wired_request' request a
    = Some (Core.Completed (Core._synthesize_response (fst (fst out))) done
                           (Core._collect_artifacts (fst (fst out))), a') /\
    Core.completed_tasks (Core.state World a') = done /\
    Core.deref (Core.heap World a') done = Core.deref (Core.heap World a) done ++ evens ts /\
    Core.deref (Core.heap World a') (Core.pending_tasks (Core.state World a')) = odds ts /\
    well_formed World a'.
Proof.
  intros Hwf ts done out. unfold well_formed in Hwf.
  unfold Core.agent_process_request, Core.process_request, Core.the_planner, Core.adopt_plan.
  change (Core.heap World (Core.remember World clock "user" request a))
    with (Core.heap World a).
  set (a0 := Core.with_state World _ _).
  assert (in_loop World (length (Core.heap World a)) a0) as Hinv.
  { unfold in_loop, a0. cbn. rewrite length_app. cbn. repeat split; lia. }
  destruct (wired_loop_every_other World clock _execute_test_task
              _execute_implementation_task _execute_analysis_task _execute_debug_task
              (length (Core.heap World a)) (S (length ts)) [] ts a0 [] Hinv)
    as (a' & Hloop & Hinv' & Hdone' & Hlen' & Hcompleted & Hpending & _).
  { unfold a0. cbn. apply deref_app_new. }
  { apply plan_NoDup. }
  { lia. }
  cbn [length app] in Hloop.
  change (Core.context (Core.state World a0)) with (Core.context (Core.state World a)) in Hloop.
  change (Core.world World a0) with (Core.world World a) in Hloop.
  change (Core.completed_tasks (Core.state World a0)) with done in Hdone', Hcompleted.
  fold out in Hloop. fold ts. rewrite Hloop.
  destruct Hinv' as (Hp' & _ & Hdlen' & _).
  cbn [Core.remember Core.state]. rewrite Hdone'.
  eexists. split; [reflexivity|].
  unfold well_formed. cbn [Core.remember Core.state Core.heap].
  rewrite Hp'.
  split; [exact Hdone'|].
  split; [|split; [exact Hpending | now rewrite Hdone' in Hdlen' |- *]].
  rewrite Hcompleted. unfold a0. cbn [Core.with_state Core.with_heap Core.heap].
  rewrite deref_app_l by exact Hwf. reflexivity.
Qed.

(** So no request has its whole plan run: the number of results is half the
    number of planned tasks, rounded up. *)
Lemma wired_request_runs_half_the_plan (request : string) (a : Core.DevonAgent World) :
  well_formed World a ->
  let n := length (Planner.tasks (Planner.create_plan request)) in
  exists response l collected a',
    wired_request' request a = Some (Core.Completed response l collected, a') /\
    Core.total_tasks response = Nat.div2 (S n) /\
    Core.total_tasks response < n.
Proof.
  intros Hwf n.
  destruct (wired_request_every_other request a Hwf) as (a' & Hrun & _).
  eexists _, _, _, a'. split; [exact Hrun|].
  rewrite synthesize_total, run_tasks_length, evens_length. fold n.
  split; [reflexivity|].
  destruct (plan_length request) as [H | [H | H]]; fold n in H; rewrite H; cbn; lia.
Qed.

End WiredRequest.

(** C1 on a new agent and the request "fix the bug in module.py", whatever
    the handlers do: the plan has four tasks, the run succeeds, and only the
    first and the third were dispatched and completed; the second and the
    fourth are still pending, and [total_tasks] is 2.  The list the loop
    iterates over is the list [pending_tasks] removes from. *)
Theorem C1_every_other_task_is_skipped
        (World : Type) (clock : nat -> string)
        (_execute_test_task _execute_implementation_task _execute_analysis_task
           _execute_debug_task : string -> gmap string Value -> World -> Exc TaskResult * World)
        (w : World) :
  Planner.tasks (Planner.create_plan bug_request)
  = ["Identify the bug location"; "Analyze root cause"; "Implement fix"; "Verify fix works"] /\
  exists response collected a',
    Core.agent_process_request World clock _execute_test_task _execute_implementation_task
      _execute_analysis_task _execute_debug_task bug_request (Core.new_agent World w)
    = Some (Core.Completed response 0 collected, a') /\
    Core.deref (Core.heap World a') 0 = ["Identify the bug location"; "Implement fix"] /\
    Core.deref (Core.heap World a') (Core.pending_tasks (Core.state World a'))
    = ["Analyze root cause"; "Verify fix works"] /\
    Core.total_tasks response = 2.
Proof.
  split; [vm_compute; reflexivity|].
  destruct (wired_request_every_other World clock _execute_test_task
              _execute_implementation_task _execute_analysis_task _execute_debug_task
              bug_request (Core.new_agent World w))
    as (a' & Hrun & Hdone & Hcompleted & Hpending & _).
  { unfold well_formed. cbn. lia. }
  replace (Planner.tasks (Planner.create_plan bug_request)) with Planner.debug_tasks
    in * by (vm_compute; reflexivity).
  eexists _, _, a'. split; [exact Hrun|].
  split; [exact Hcompleted|]. split; [exact Hpending|].
  now rewrite synthesize_total, run_tasks_length.
Qed.

(* ===================================================================== *)
(** * Orchestrator: errors *)
(* ===================================================================== *)

Section DispatcherErrors.

Variable World : Type.
Variable _execute_test_task : string -> gmap string Value -> World -> Exc TaskResult * World.
Variable _execute_implementation_task : string -> gmap string Value -> World -> Exc TaskResult * World.
Variable _execute_analysis_task : string -> gmap string Value -> World -> Exc TaskResult * World.
Variable _execute_debug_task : string -> gmap string Value -> World -> Exc TaskResult * World.

Abbreviation handler_of task :=
  (Executor.run_handler World _execute_test_task _execute_implementation_task
                        _execute_analysis_task _execute_debug_task (Executor.route task) task).

(** An exception of the handler becomes the failure result; a result of the
    handler is passed on. *)
Lemma execute_task_catches (task e : string) (ctx : gmap string Value) (w w' : World) :
  handler_of task ctx w = (inl e, w') ->
  Executor.execute_task World _execute_test_task _execute_implementation_task
    _execute_analysis_task _execute_debug_task task ctx w
  = (Executor.failure_result e task, w').
Proof. intros H. unfold Executor.execute_task. now rewrite H. Qed.

Lemma execute_task_passes (task : string) (r : TaskResult) (ctx : gmap string Value)
      (w w' : World) :
  handler_of task ctx w = (inr r, w') ->
  Executor.execute_task World _execute_test_task _execute_implementation_task
    _execute_analysis_task _execute_debug_task task ctx w
  = (r, w').
Proof. intros H. unfold Executor.execute_task. now rewrite H. Qed.

End DispatcherErrors.

Section RequestErrors.

Variable World : Type.
Variable clock : nat -> string.
Variable planner : string -> gmap string Value -> Exc Planner.TaskPlan.
Variable executor : string -> gmap string Value -> World -> Exc TaskResult * World.

Abbreviation request' := (Core.process_request World clock planner executor).

(** When the planner raises, the request fails with the planner's message
    and the completed list as it was. *)
Lemma planner_failure (user_request e : string) (a : Core.DevonAgent World) :
  planner user_request (Core.context (Core.state World a)) = inl e ->
  exists a',
    request' user_request a
    = Some (Core.Failed e (Core.completed_tasks (Core.state World a)), a') /\
    Core.heap World a' = Core.heap World a /\
    Core.state World a' = Core.state World a.
Proof.
  intros H. unfold Core.process_request.
  change (Core.context (Core.state World (Core.remember World clock "user" user_request a)))
    with (Core.context (Core.state World a)).
  rewrite H. eexists. repeat split.
Qed.

(** A request always returns.  Whether it succeeds or fails, the response
    carries the agent's completed list, which is the list of before the
    request with the tasks completed during the request appended; on
    success there is one result per appended task. *)
Lemma process_request_appends (user_request : string) (a : Core.DevonAgent World) :
  well_formed World a ->
  exists response a' new,
    request' user_request a = Some (response, a') /\
    Core.tasks_completed response = Core.completed_tasks (Core.state World a') /\
    Core.completed_tasks (Core.state World a') = Core.completed_tasks (Core.state World a) /\
    Core.deref (Core.heap World a') (Core.completed_tasks (Core.state World a))
    = Core.deref (Core.heap World a) (Core.completed_tasks (Core.state World a)) ++ new /\
    well_formed World a' /\
    (forall r l c, response = Core.Completed r l c -> Core.total_tasks r = length new).
Proof.
  intros Hwf. unfold well_formed in Hwf. unfold Core.process_request.
  change (Core.context (Core.state World (Core.remember World clock "user" user_request a)))
    with (Core.context (Core.state World a)).
  destruct (planner user_request _) as [e | plan].
  - eexists _, _, []. split; [reflexivity|]. rewrite app_nil_r.
    unfold well_formed. cbn. repeat split; auto. discriminate.
  - unfold Core.adopt_plan.
    change (Core.heap World (Core.remember World clock "user" user_request a))
      with (Core.heap World a).
    set (a0 := Core.with_state World _ _).
    assert (in_loop World (length (Core.heap World a)) a0) as Hinv.
    { unfold in_loop, a0. cbn. rewrite length_app. cbn. repeat split; lia. }
    destruct (task_loop_appends World clock executor (length (Core.heap World a))
                (S (length (Planner.tasks plan))) 0 a0 [] Hinv)
      as (out & a' & new & Hloop & Hinv' & Hdone' & Hnew & _ & Hres).
    { unfold a0. cbn. rewrite deref_app_new. lia. }
    rewrite Hloop.
    change (Core.completed_tasks (Core.state World a0))
      with (Core.completed_tasks (Core.state World a)) in Hdone', Hnew.
    assert (Core.deref (Core.heap World a0) (Core.completed_tasks (Core.state World a))
            = Core.deref (Core.heap World a) (Core.completed_tasks (Core.state World a)))
      as Hold by (unfold a0; cbn; now rewrite deref_app_l).
    rewrite Hold in Hnew.
    destruct Hinv' as (_ & _ & Hdlen' & _). rewrite Hdone' in Hdlen'.
    destruct out as [e | results].
    + exists (Core.Failed e (Core.completed_tasks (Core.state World a'))), a', new.
      unfold well_formed. rewrite Hdone'. repeat split; auto. discriminate.
    + eexists _, _, new. split; [reflexivity|].
      unfold well_formed. cbn [Core.remember Core.state Core.heap Core.tasks_completed].
      rewrite Hdone'. repeat split; auto.
      intros r l c [= <- _ _]. rewrite synthesize_total. now apply Hres.
Qed.

Lemma run_session_cumulative (requests : list string) :
  forall a : Core.DevonAgent World,
    well_formed World a ->
    exists seen,
      run_session World clock planner executor requests a = Some seen /\
      length seen = length requests /\
      cumulative (Core.deref (Core.heap World a) (Core.completed_tasks (Core.state World a)))
                 seen.
Proof.
  induction requests as [|user_request requests IH]; intros a Hwf; cbn [run_session].
  - exists []. repeat split.
  - destruct (process_request_appends user_request a Hwf)
      as (response & a' & new & Hrun & Hresp & Hdone & Hnew & Hwf' & _).
    rewrite Hrun.
    destruct (IH a' Hwf') as (seen & Hseen & Hlen & Hcum).
    rewrite Hseen. eexists. split; [reflexivity|].
    cbn [length cumulative]. rewrite Hresp, Hdone in *.
    repeat split; auto. rewrite Hnew. now exists new.
Qed.

End RequestErrors.

(** C5 on a new agent and the request "fix the bug in module.py", when the
    implementation handler raises [e] on the task "Implement fix" (for
    instance because the workspace cannot be written to).  The dispatcher
    turns the exception into the failure result, and the request as a whole
    succeeds with that result among its two results: the first tier is as
    the claim says.  But "Verify fix works", the task after "Implement fix"
    in the plan, is not dispatched: it is not in the completed list and
    stays pending.  The loop does not go on to the next task of the plan. *)
Theorem C5_next_task_after_failure_not_run
        (World : Type) (clock : nat -> string)
        (_execute_test_task _execute_implementation_task _execute_analysis_task
           _execute_debug_task : string -> gmap string Value -> World -> Exc TaskResult * World)
        (e : string) (w : World) :
  (forall ctx w0, _execute_implementation_task "Implement fix" ctx w0 = (inl e, w0)) ->
  (forall ctx w0,
     Executor.execute_task World _execute_test_task _execute_implementation_task
       _execute_analysis_task _execute_debug_task "Implement fix" ctx w0
     = (Executor.failure_result e "Implement fix", w0)) /\
  exists collected a',
    Core.agent_process_request World clock _execute_test_task _execute_implementation_task
      _execute_analysis_task _execute_debug_task bug_request (Core.new_agent World w)
    = Some (Core.Completed
              (Core._synthesize_response
                 [Executor._execute_generic_task "Identify the bug location";
                  Executor.failure_result e "Implement fix"])
              0 collected, a') /\
    Planner.tasks (Planner.create_plan bug_request)
    = ["Identify the bug location"; "Analyze root cause"; "Implement fix"; "Verify fix works"] /\
    Core.deref (Core.heap World a') 0 = ["Identify the bug location"; "Implement fix"] /\
    ("Verify fix works" ∉ Core.deref (Core.heap World a') 0) /\
    Core.deref (Core.heap World a') (Core.pending_tasks (Core.state World a'))
    = ["Analyze root cause"; "Verify fix works"].
Proof.
  intros Hraise.
  assert (forall ctx w0,
     Executor.execute_task World _execute_test_task _execute_implementation_task
       _execute_analysis_task _execute_debug_task "Implement fix" ctx w0
     = (Executor.failure_result e "Implement fix", w0)) as Hcatch.
  { intros ctx w0. apply execute_task_catches.
    replace (Executor.route "Implement fix") with Executor.implementation_handler
      by (vm_compute; reflexivity).
    apply Hraise. }
  split; [exact Hcatch|].
  destruct (wired_request_every_other World clock _execute_test_task
              _execute_implementation_task _execute_analysis_task _execute_debug_task
              bug_request (Core.new_agent World w))
    as (a' & Hrun & Hdone & Hcompleted & Hpending & _).
  { unfold well_formed. cbn. lia. }
  replace (Planner.tasks (Planner.create_plan bug_request)) with Planner.debug_tasks
    in * by (vm_compute; reflexivity).
  cbn [evens Planner.debug_tasks run_tasks fst snd] in Hrun.
  rewrite Hcatch in Hrun.
  rewrite (execute_task_passes World _ _ _ _ "Identify the bug location"
             (Executor._execute_generic_task "Identify the bug location") _ w w) in Hrun
    by (replace (Executor.route "Identify the bug location") with Executor.generic_handler
          by (vm_compute; reflexivity); reflexivity).
  cbn [fst snd] in Hrun.
  eexists _, a'. split; [exact Hrun|].
  split; [reflexivity|]. split; [exact Hcompleted|].
  split; [|exact Hpending].
  cbn in Hcompleted. rewrite Hcompleted. intros Hin.
  repeat (apply elem_of_cons in Hin; destruct Hin as [Hin | Hin]; [discriminate|]).
  inversion Hin.
Qed.

Lemma C5_next_task_after_failure_not_run_witness :
  (forall ctx w0, raising_handler "disk full" "Implement fix" ctx w0 = (inl "disk full", w0)) /\
  exists collected a',
    Core.agent_process_request unit fixed_clock quiet_handler (raising_handler "disk full")
      quiet_handler quiet_handler bug_request (Core.new_agent unit tt)
    = Some (Core.Completed
              (Core._synthesize_response
                 [Executor._execute_generic_task "Identify the bug location";
                  Executor.failure_result "disk full" "Implement fix"])
              0 collected, a') /\
    Core.deref (Core.heap unit a') 0 = ["Identify the bug location"; "Implement fix"] /\
    ("Verify fix works" ∉ Core.deref (Core.heap unit a') 0).
Proof.
  split; [reflexivity|].
  destruct (C5_next_task_after_failure_not_run unit fixed_clock quiet_handler
              (raising_handler "disk full") quiet_handler quiet_handler "disk full" tt)
    as (_ & collected & a' & Hrun & _ & Hcompleted & Hnot & _).
  - reflexivity.
  - exists collected, a'. auto.
Defined.

(** C10: on an agent whose completed list is a list of its heap, every
    request returns a response, successful or failed, whose
    [tasks_completed] is the agent's completed list object, the same before
    and after; the request only appends to it (one task per result on
    success).  So over any run of requests without [reset()], the completed
    list each caller sees extends the one the caller before saw. *)
Theorem C10_tasks_completed_is_cumulative
        (World : Type) (clock : nat -> string)
        (planner : string -> gmap string Value -> Exc Planner.TaskPlan)
        (executor : string -> gmap string Value -> World -> Exc TaskResult * World)
        (a : Core.DevonAgent World) (user_request : string) (requests : list string) :
  well_formed World a ->
  let done := Core.completed_tasks (Core.state World a) in
  (exists response a' new,
     Core.process_request World clock planner executor user_request a = Some (response, a') /\
     Core.tasks_completed response = done /\
     Core.completed_tasks (Core.state World a') = done /\
     Core.deref (Core.heap World a') done = Core.deref (Core.heap World a) done ++ new /\
     (forall r l c, response = Core.Completed r l c -> Core.total_tasks r = length new)) /\
  (exists seen,
     run_session World clock planner executor requests a = Some seen /\
     length seen = length requests /\
     cumulative (Core.deref (Core.heap World a) done) seen).
Proof.
  intros Hwf done. split.
  - destruct (process_request_appends World clock planner executor user_request a Hwf)
      as (response & a' & new & Hrun & Hresp & Hdone & Hnew & _ & Htotal).
    exists response, a', new. rewrite Hresp. auto.
  - now apply run_session_cumulative.
Qed.

Lemma C10_tasks_completed_is_cumulative_witness :
  well_formed unit (Core.new_agent unit tt) /\
  exists seen,
    run_session unit fixed_clock Core.the_planner quiet_handler
                [bug_request; "add a test"] (Core.new_agent unit tt) = Some seen /\
    length seen = 2 /\
    cumulative [] seen.
Proof.
  assert (well_formed unit (Core.new_agent unit tt)) as Hwf
    by (unfold well_formed; simpl; lia).
  split; [exact Hwf|].
  exact (proj2 (C10_tasks_completed_is_cumulative unit fixed_clock Core.the_planner
                  quiet_handler (Core.new_agent unit tt) bug_request
                  [bug_request; "add a test"] Hwf)).
Defined.

Lemma C8_recent_buffer_bound_witness :
  length three_entries = 2 + 1 /\
  Memory.get_recent_context 2 (fold_left insert_entry three_entries (Memory.fresh 2))
  = drop 1 (map interaction_of three_entries).
Proof.
  split; [reflexivity|].
  exact (proj1 (C8_recent_buffer_bound 2 1 three_entries eq_refl)).
Defined.

(* ===================================================================== *)
(** * Planner: deduplication *)
(* ===================================================================== *)

Lemma optimize_fold (tasks unique_tasks : list string) (seen : gset string) :
  fst (fold_left Planner.optimize_step tasks (unique_tasks, seen))
  = unique_tasks ++ keep_first seen tasks.
Proof.
  revert unique_tasks seen.
  induction tasks as [|t tasks IH]; intros unique_tasks seen; cbn [fold_left keep_first].
  - now rewrite app_nil_r.
  - unfold Planner.optimize_step at 2. fold (task_key t).
    destruct (decide (task_key t ∈ seen)).
    + apply IH.
    + rewrite IH, <- app_assoc. reflexivity.
Qed.

Lemma optimize_plan_tasks (plan : Planner.TaskPlan) :
  Planner.tasks (Planner.optimize_plan plan) = keep_first ∅ (Planner.tasks plan).
Proof. unfold Planner.optimize_plan. cbn [Planner.tasks]. apply optimize_fold. Qed.

Lemma keep_first_sublist (tasks : list string) (seen : gset string) :
  keep_first seen tasks `sublist_of` tasks.
Proof.
  revert seen. induction tasks as [|t tasks IH]; intros seen; cbn [keep_first].
  - constructor.
  - destruct (decide (task_key t ∈ seen)).
    + apply sublist_cons, IH.
    + apply sublist_skip, IH.
Qed.

Lemma keep_first_keys_new (tasks : list string) (seen : gset string) (k : string) :
  k ∈ map task_key (keep_first seen tasks) -> k ∉ seen.
Proof.
  revert seen. induction tasks as [|t tasks IH]; intros seen; cbn [keep_first].
  - cbn. intros H. inversion H.
  - destruct (decide (task_key t ∈ seen)) as [Hin | Hnew].
    + apply IH.
    + cbn [map]. intros H. apply elem_of_cons in H. destruct H as [-> | H].
      * exact Hnew.
      * apply IH in H. intros Hk. apply H. apply elem_of_union. now right.
Qed.

Lemma keep_first_keys_NoDup (tasks : list string) (seen : gset string) :
  NoDup (map task_key (keep_first seen tasks)).
Proof.
  revert seen. induction tasks as [|t tasks IH]; intros seen; cbn [keep_first].
  - constructor.
  - destruct (decide (task_key t ∈ seen)) as [Hin | Hnew]; [apply IH|].
    cbn [map]. apply NoDup_cons. split; [|apply IH].
    intros H. apply keep_first_keys_new in H. apply H.
    apply elem_of_union. left. now apply elem_of_singleton.
Qed.

Lemma keep_first_covers (tasks : list string) (seen : gset string) (t : string) :
  t ∈ tasks -> task_key t ∈ seen \/ task_key t ∈ map task_key (keep_first seen tasks).
Proof.
  revert seen. induction tasks as [|u tasks IH]; intros seen Hin; cbn [keep_first].
  - inversion Hin.
  - apply elem_of_cons in Hin.
    destruct (decide (task_key u ∈ seen)) as [Hu | Hu].
    + destruct Hin as [-> | Hin]; [now left | now apply IH].
    + cbn [map]. destruct Hin as [-> | Hin].
      * right. apply elem_of_cons. now left.
      * destruct (IH ({[task_key u]} ∪ seen) Hin) as [H | H].
        -- apply elem_of_union in H. destruct H as [H | H].
           ++ apply elem_of_singleton in H. right. apply elem_of_cons. now left.
           ++ now left.
        -- right. apply elem_of_cons. now right.
Qed.

Lemma keep_first_fixed (tasks : list string) (seen : gset string) :
  NoDup (map task_key tasks) ->
  (forall k, k ∈ map task_key tasks -> k ∉ seen) ->
  keep_first seen tasks = tasks.
Proof.
  revert seen. induction tasks as [|t tasks IH]; intros seen Hnd Hnew; cbn [keep_first].
  - reflexivity.
  - cbn [map] in Hnd, Hnew. apply NoDup_cons in Hnd. destruct Hnd as [Ht Hnd].
    destruct (decide (task_key t ∈ seen)) as [Hin | _].
    + exfalso. apply (Hnew (task_key t)); [apply elem_of_cons; now left | exact Hin].
    + f_equal. apply IH; [exact Hnd|].
      intros k Hk Hseen. apply elem_of_union in Hseen. destruct Hseen as [Hseen | Hseen].
      * apply elem_of_singleton in Hseen. subst k. contradiction.
      * apply (Hnew k); [apply elem_of_cons; now right | exact Hseen].
Qed.

Lemma keep_first_first_occurrence (pre post : list string) (t : string) (seen : gset string) :
  task_key t ∉ seen ->
  task_key t ∉ map task_key pre ->
  exists pre' post',
    keep_first seen (pre ++ t :: post) = pre' ++ t :: post' /\
    pre' `sublist_of` pre /\ post' `sublist_of` post.
Proof.
  revert seen. induction pre as [|u pre IH]; intros seen Hseen Hpre; cbn [app keep_first].
  - destruct (decide (task_key t ∈ seen)); [contradiction|].
    exists [], (keep_first ({[task_key t]} ∪ seen) post).
    repeat split; [constructor | apply keep_first_sublist].
  - cbn [map] in Hpre. apply not_elem_of_cons in Hpre. destruct Hpre as [Hne Hpre].
    destruct (decide (task_key u ∈ seen)) as [Hu | Hu].
    + destruct (IH seen Hseen Hpre) as (pre' & post' & Heq & Hs1 & Hs2).
      exists pre', post'. repeat split; [exact Heq | now apply sublist_cons | exact Hs2].
    + destruct (IH ({[task_key u]} ∪ seen)) as (pre' & post' & Heq & Hs1 & Hs2).
      * intros H. apply elem_of_union in H. destruct H as [H | H]; [|contradiction].
        apply elem_of_singleton in H. congruence.
      * exact Hpre.
      * exists (u :: pre'), post'. rewrite Heq.
        repeat split; [now apply sublist_skip | exact Hs2].
Qed.

(** X1: [optimize_plan] keeps, for every key (the lower-cased, stripped task
    text), exactly the first task with that key, in the original order, and
    leaves the dependency map and the complexity of the plan as they
    were. *)
Theorem X1_optimize_plan_keeps_first_occurrences (plan : Planner.TaskPlan) :
  let kept := Planner.tasks (Planner.optimize_plan plan) in
  kept `sublist_of` Planner.tasks plan /\
  NoDup (map task_key kept) /\
  (forall t, t ∈ Planner.tasks plan -> task_key t ∈ map task_key kept) /\
  (forall pre t post,
     Planner.tasks plan = pre ++ t :: post ->
     task_key t ∉ map task_key pre ->
     exists pre' post',
       kept = pre' ++ t :: post' /\ pre' `sublist_of` pre /\ post' `sublist_of` post) /\
  Planner.dependencies (Planner.optimize_plan plan) = Planner.dependencies plan /\
  Planner.complexity (Planner.optimize_plan plan) = Planner.complexity plan.
Proof.
  cbv zeta. rewrite optimize_plan_tasks.
  split; [apply keep_first_sublist|].
  split; [apply keep_first_keys_NoDup|].
  split.
  { intros t Ht. destruct (keep_first_covers _ ∅ t Ht) as [H | H]; [|exact H].
    now apply not_elem_of_empty in H. }
  split; [|split; reflexivity].
  intros pre t post -> Hpre.
  apply keep_first_first_occurrence; [apply not_elem_of_empty | exact Hpre].
Qed.

(** X2: deduplicating a deduplicated plan changes nothing. *)
Theorem X2_optimize_plan_idempotent (plan : Planner.TaskPlan) :
  Planner.optimize_plan (Planner.optimize_plan plan) = Planner.optimize_plan plan.
Proof.
  unfold Planner.optimize_plan at 1. rewrite optimize_fold. cbn [app].
  rewrite optimize_plan_tasks.
  rewrite keep_first_fixed.
  - unfold Planner.optimize_plan. rewrite optimize_fold. reflexivity.
  - apply keep_first_keys_NoDup.
  - intros k _. apply not_elem_of_empty.
Qed.

Lemma plan_keys_NoDup (request : string) :
  NoDup (map task_key (Planner.tasks (Planner.create_plan request))).
Proof.
  unfold Planner.create_plan, Planner._analyze_complexity, Planner._parallel_planning,
    Planner._sequential_planning.
  cbn [Planner.tasks].
  repeat match goal with
         | |- context [if ?b then _ else _] => destruct b
         end;
    apply (bool_decide_unpack _); vm_compute; reflexivity.
Qed.

(** X3: the plans the planner builds have no two tasks with the same key,
    so [optimize_plan] returns every one of them unchanged. *)
Theorem X3_optimize_plan_keeps_planner_plans (request : string) :
  Planner.optimize_plan (Planner.create_plan request) = Planner.create_plan request.
Proof.
  unfold Planner.optimize_plan. rewrite optimize_fold. cbn [app].
  rewrite keep_first_fixed.
  - now destruct (Planner.create_plan request).
  - apply plan_keys_NoDup.
  - intros k _. apply not_elem_of_empty.
Qed.

(* ===================================================================== *)
(** * Planner: dependencies *)
(* ===================================================================== *)

Lemma identify_from_outside (tasks seen : list string) (deps : gmap string (list string))
      (k : string) :
  k ∉ tasks -> Planner.identify_from seen tasks deps !! k = deps !! k.
Proof.
  revert seen deps. induction tasks as [|t tasks IH]; intros seen deps Hk;
    cbn [Planner.identify_from]; [reflexivity|].
  apply not_elem_of_cons in Hk. destruct Hk as [Hne Hk].
  rewrite IH by exact Hk.
  destruct (Planner.is_parallel t); [reflexivity|].
  destruct (List.find _ seen); [|reflexivity].
  now rewrite lookup_insert_ne.
Qed.

Lemma identify_from_app (pre post seen : list string) (deps : gmap string (list string)) :
  Planner.identify_from seen (pre ++ post) deps
  = Planner.identify_from (rev pre ++ seen) post (Planner.identify_from seen pre deps).
Proof.
  revert seen deps. induction pre as [|t pre IH]; intros seen deps;
    cbn [app rev Planner.identify_from]; [reflexivity|].
  rewrite IH, <- app_assoc. reflexivity.
Qed.

Lemma identify_dependencies_at (pre post : list string) (k : string) :
  NoDup (pre ++ k :: post) ->
  Planner._identify_dependencies (pre ++ k :: post) !! k
  = if Planner.is_parallel k then None
    else (fun d => [d]) <$> nearest_serial pre.
Proof.
  intros Hnd. apply NoDup_app in Hnd. destruct Hnd as (_ & Hpre & Hpost).
  apply NoDup_cons in Hpost. destruct Hpost as [Hpost _].
  assert (k ∉ pre) as Hkpre.
  { intros H. apply (Hpre k H). apply elem_of_cons. now left. }
  unfold Planner._identify_dependencies. rewrite identify_from_app.
  cbn [Planner.identify_from]. rewrite identify_from_outside by exact Hpost.
  rewrite app_nil_r. unfold nearest_serial.
  destruct (Planner.is_parallel k).
  - rewrite identify_from_outside by exact Hkpre. apply lookup_empty.
  - destruct (List.find _ (rev pre)) as [d|]; cbn.
    + apply lookup_insert_eq.
    + rewrite identify_from_outside by exact Hkpre. apply lookup_empty.
Qed.

(** X4: in a task list without duplicates, a task marked [[Parallel]] has no
    entry in the dependency map, and any other task has exactly one
    dependency, the nearest earlier task that is not marked, or no entry
    when there is no such task. *)
Theorem X4_identify_dependencies_nearest_serial (pre post : list string) (k : string) :
  NoDup (pre ++ k :: post) ->
  Planner._identify_dependencies (pre ++ k :: post) !! k
  = if Planner.is_parallel k then None
    else (fun d => [d]) <$> nearest_serial pre.
Proof. apply identify_dependencies_at. Qed.

Lemma X4_identify_dependencies_nearest_serial_witness :
  NoDup (["a"; "[Parallel] b"] ++ "c" :: ["d"]) /\
  Planner._identify_dependencies (["a"; "[Parallel] b"] ++ "c" :: ["d"]) !! "c" = Some ["a"].
Proof.
  assert (NoDup (["a"; "[Parallel] b"] ++ "c" :: ["d"])) as Hnd
    by (apply (bool_decide_unpack _); vm_compute; reflexivity).
  split; [exact Hnd|].
  exact (X4_identify_dependencies_nearest_serial ["a"; "[Parallel] b"] ["d"] "c" Hnd).
Defined.

Lemma identify_from_justified (tasks gone : list string) (deps : gmap string (list string)) :
  entries_justified deps gone ->
  entries_justified (Planner.identify_from (rev gone) tasks deps) (gone ++ tasks).
Proof.
  revert gone deps. induction tasks as [|t tasks IH]; intros gone deps Hinv;
    cbn [Planner.identify_from].
  - now rewrite app_nil_r.
  - replace (gone ++ t :: tasks) with ((gone ++ [t]) ++ tasks)
      by (now rewrite <- app_assoc).
    replace (t :: rev gone) with (rev (gone ++ [t])) by (now rewrite rev_unit).
    apply IH. intros k v Hk.
    assert (deps !! k = Some v ->
            Planner.is_parallel k = false /\
            exists d pre post,
              v = [d] /\ gone ++ [t] = pre ++ k :: post /\ nearest_serial pre = Some d)
      as Hold.
    { intros H. destruct (Hinv k v H) as (Hpar & d & pre & post & -> & -> & Hd).
      split; [exact Hpar|]. exists d, pre, (post ++ [t]).
      repeat split; [now rewrite <- app_assoc | exact Hd]. }
    destruct (Planner.is_parallel t) eqn:Hpar; [now apply Hold|].
    destruct (List.find _ (rev gone)) as [d|] eqn:Hfind; [|now apply Hold].
    destruct (decide (t = k)) as [-> | Hne].
    + rewrite lookup_insert_eq in Hk. injection Hk as <-.
      split; [exact Hpar|]. exists d, gone, []. repeat split. exact Hfind.
    + rewrite lookup_insert_ne in Hk by exact Hne. now apply Hold.
Qed.

Lemma nearest_serial_spec (pre : list string) (d : string) :
  nearest_serial pre = Some d -> d ∈ pre /\ Planner.is_parallel d = false.
Proof.
  unfold nearest_serial. intros H. apply find_some in H. destruct H as [Hin Hd].
  split.
  - apply list_elem_of_In. now apply in_rev.
  - now apply negb_true_iff.
Qed.

(** X5: for any task list, duplicates or not, every entry of the dependency
    map belongs to a task that is not marked [[Parallel]] and holds exactly
    one task: the nearest unmarked task before some occurrence of the key.
    Marked tasks are never keys and never dependencies. *)
Theorem X5_identify_dependencies_entries (tasks : list string) (k : string) (v : list string) :
  Planner._identify_dependencies tasks !! k = Some v ->
  Planner.is_parallel k = false /\
  exists d pre post,
    v = [d] /\ tasks = pre ++ k :: post /\ nearest_serial pre = Some d /\
    d ∈ pre /\ Planner.is_parallel d = false.
Proof.
  intros H.
  assert (entries_justified (Planner._identify_dependencies tasks) tasks) as Hall.
  { apply (identify_from_justified tasks [] ∅). intros k' v' H'.
    now rewrite lookup_empty in H'. }
  destruct (Hall k v H) as (Hpar & d & pre & post & Hv & Htasks & Hd).
  split; [exact Hpar|]. exists d, pre, post.
  destruct (nearest_serial_spec pre d Hd). auto.
Qed.

Lemma X5_identify_dependencies_entries_witness :
  Planner._identify_dependencies ["a"; "[Parallel] b"; "a"; "c"] !! "c" = Some ["a"] /\
  Planner.is_parallel "c" = false.
Proof.
  assert (Planner._identify_dependencies ["a"; "[Parallel] b"; "a"; "c"] !! "c" = Some ["a"])
    as H by (vm_compute; reflexivity).
  split; [exact H|].
  exact (proj1 (X5_identify_dependencies_entries _ _ _ H)).
Defined.

Lemma serial_plan_tasks (request : string) :
  Planner.complexity (Planner.create_plan request) <> Planner.moderate ->
  forallb (fun t => negb (Planner.is_parallel t))
          (Planner.tasks (Planner.create_plan request)) = true.
Proof.
  unfold Planner.create_plan, Planner._analyze_complexity, Planner._sequential_planning.
  cbn [Planner.tasks Planner.complexity].
  repeat match goal with
         | |- context [if ?b then _ else _] => destruct b
         end;
    cbn [Planner._select_strategy]; intros H; try contradiction;
    vm_compute; reflexivity.
Qed.

(** X6: when the request is classified simple or complex, the dependency
    map of its plan is a chain: the first task has no entry and every other
    task depends on exactly the task before it. *)
Theorem X6_serial_plan_dependencies_chain (request : string) :
  Planner.complexity (Planner.create_plan request) <> Planner.moderate ->
  let plan := Planner.create_plan request in
  (forall first rest,
     Planner.tasks plan = first :: rest -> Planner.dependencies plan !! first = None) /\
  (forall pre t u post,
     Planner.tasks plan = pre ++ t :: u :: post ->
     Planner.dependencies plan !! u = Some [t]).
Proof.
  intros Hserial plan.
  pose proof (serial_plan_tasks request Hserial) as Hnone.
  pose proof (plan_NoDup request) as Hnd.
  fold plan in Hnone, Hnd.
  change (Planner.dependencies plan)
    with (Planner._identify_dependencies (Planner.tasks plan)).
  split.
  - intros first rest Heq. rewrite Heq in *.
    pose proof (identify_dependencies_at [] rest first Hnd) as Hat.
    cbn [app] in Hat. rewrite Hat.
    cbn in Hnone. apply andb_true_iff in Hnone. destruct Hnone as [Hfirst _].
    apply negb_true_iff in Hfirst. now rewrite Hfirst.
  - intros pre t u post Heq. rewrite Heq in *.
    replace (pre ++ t :: u :: post) with ((pre ++ [t]) ++ u :: post) in *
      by (now rewrite <- app_assoc).
    rewrite (identify_dependencies_at (pre ++ [t]) post u Hnd).
    rewrite forallb_app in Hnone. apply andb_true_iff in Hnone.
    destruct Hnone as [Hpre Hu]. cbn in Hu. apply andb_true_iff in Hu.
    destruct Hu as [Hu _]. apply negb_true_iff in Hu. rewrite Hu.
    rewrite forallb_app in Hpre. apply andb_true_iff in Hpre.
    destruct Hpre as [_ Ht]. cbn in Ht. rewrite andb_true_r in Ht.
    unfold nearest_serial. rewrite rev_unit. cbn [List.find]. now rewrite Ht.
Qed.

Lemma X6_serial_plan_dependencies_chain_witness :
  Planner.complexity (Planner.create_plan bug_request) <> Planner.moderate /\
  Planner.dependencies (Planner.create_plan bug_request) !! "Analyze root cause"
  = Some ["Identify the bug location"].
Proof.
  assert (Planner.complexity (Planner.create_plan bug_request) <> Planner.moderate) as H
    by (vm_compute; discriminate).
  split; [exact H|].
  exact (proj2 (X6_serial_plan_dependencies_chain bug_request H)
               [] "Identify the bug location" "Analyze root cause"
               ["Implement fix"; "Verify fix works"] eq_refl).
Defined.

(** X7: every plan has distinct tasks; it has eleven of them exactly when
    the request is classified complex, and three or four otherwise. *)
Theorem X7_plan_shape (request : string) :
  let plan := Planner.create_plan request in
  NoDup (Planner.tasks plan) /\
  (Planner.complexity plan = Planner.complex -> length (Planner.tasks plan) = 11) /\
  (Planner.complexity plan <> Planner.complex ->
   length (Planner.tasks plan) = 3 \/ length (Planner.tasks plan) = 4).
Proof.
  split; [apply plan_NoDup|].
  unfold Planner.create_plan, Planner._analyze_complexity, Planner._parallel_planning,
    Planner._sequential_planning.
  cbn [Planner.tasks Planner.complexity].
  repeat match goal with
         | |- context [if ?b then _ else _] => destruct b
         end;
    cbn [Planner._select_strategy]; split; intros H;
    try discriminate; try contradiction; try (vm_compute; auto; fail).
Qed.

(* ===================================================================== *)
(** * Dispatcher: where implementations are written *)
(* ===================================================================== *)

(** X8: a task that the dispatcher sends to the implementation handler is
    never written to [tests/test_main.py]: such a task does not contain
    "test", so of the four paths of [_determine_file_path] only the api,
    models and src ones are ever used. *)
Theorem X8_implementation_never_writes_tests (task : string) :
  Executor.route task = Executor.implementation_handler ->
  Executor._determine_file_path task <> "tests/test_main.py" /\
  (Executor._determine_file_path task = "api/endpoints.py" \/
   Executor._determine_file_path task = "models/data_model.py" \/
   Executor._determine_file_path task = "src/implementation.py").
Proof.
  unfold Executor.route, Executor._determine_file_path.
  destruct (Py.str_in "test" (Py.lower task)); [discriminate|].
  intros _.
  destruct (Py.str_in "api" (Py.lower task)); [split; [discriminate | auto]|].
  destruct (Py.str_in "model" (Py.lower task)); split; (discriminate || auto).
Qed.

Lemma X8_implementation_never_writes_tests_witness :
  Executor.route "Implement fix" = Executor.implementation_handler /\
  Executor._determine_file_path "Implement fix" <> "tests/test_main.py".
Proof.
  assert (Executor.route "Implement fix" = Executor.implementation_handler) as H
    by (vm_compute; reflexivity).
  split; [exact H|].
  exact (proj1 (X8_implementation_never_writes_tests "Implement fix" H)).
Defined.

(* ===================================================================== *)
(** * Memory store: the buffer in general *)
(* ===================================================================== *)

Lemma deque_append_bounded (cap : nat) (d : list Memory.Interaction) (x : Memory.Interaction) :
  length d <= cap -> length (Memory.deque_append cap d x) <= cap.
Proof.
  intros H. unfold Memory.deque_append.
  destruct (Nat.ltb_spec cap (length (d ++ [x]))) as [Hfull | Hroom].
  - rewrite length_drop, length_app. cbn. lia.
  - exact Hroom.
Qed.

Lemma fold_deque_append_bounded (cap : nat) (xs d : list Memory.Interaction) :
  length d <= cap -> length (fold_left (Memory.deque_append cap) xs d) <= cap.
Proof.
  revert d. induction xs as [|x xs IH]; intros d H; cbn [fold_left]; [exact H|].
  apply IH, deque_append_bounded, H.
Qed.

(** X9: the recent buffer never outgrows its capacity: a store within its
    capacity stays so under [add_interaction], [load_memory] (whatever the
    file holds) and [clear], and a newly constructed store is within it. *)
Theorem X9_buffer_never_exceeds_capacity
        (Blob : Type) (pickle_load : Blob -> option Memory.MemoryData)
        (m : Memory.MemoryManager) :
  bounded m ->
  (forall now role content metadata,
     bounded (Memory.add_interaction now role content metadata m)) /\
  (forall disk, bounded (Memory.load_memory Blob pickle_load m disk)) /\
  bounded (Memory.clear m) /\
  (forall cap path disk, bounded (Memory.init Blob pickle_load cap path disk)).
Proof.
  intros Hm. unfold bounded in *.
  assert (forall m0 disk,
            length (Memory.short_term m0) <= Memory.maxlen m0 ->
            length (Memory.short_term (Memory.load_memory Blob pickle_load m0 disk))
            <= Memory.maxlen (Memory.load_memory Blob pickle_load m0 disk)) as Hload.
  { intros m0 disk H0. unfold Memory.load_memory.
    destruct (Memory.persistence_path m0); [|exact H0].
    destruct (disk !! _); [|exact H0].
    destruct (pickle_load _); [|exact H0].
    cbn. now apply fold_deque_append_bounded. }
  repeat split.
  - intros now role content metadata. cbn. now apply deque_append_bounded.
  - intros disk. now apply Hload.
  - cbn. lia.
  - intros cap path disk. apply Hload. cbn. lia.
Qed.

Lemma X9_buffer_never_exceeds_capacity_witness :
  bounded (Memory.fresh 2) /\
  bounded (Memory.add_interaction "t" "user" "hello" None (Memory.fresh 2)).
Proof.
  assert (bounded (Memory.fresh 2)) as H by (unfold bounded; simpl; lia).
  split; [exact H|].
  exact (proj1 (X9_buffer_never_exceeds_capacity Memory.MemoryData (fun d => Some d)
                  (Memory.fresh 2) H) "t" "user" "hello" None).
Defined.

Lemma last_n_last_n {A} (a b : nat) (l : list A) :
  last_n a (last_n b l) = last_n (Nat.min a b) l.
Proof.
  unfold last_n. rewrite length_drop, drop_drop. f_equal. lia.
Qed.

Lemma get_recent_context_positive (n : Z) (m : Memory.MemoryManager) :
  (0 < n)%Z ->
  Memory.get_recent_context n m = last_n (Z.to_nat n) (Memory.short_term m).
Proof.
  intros Hn. unfold Memory.get_recent_context, Py.slice_from, last_n.
  destruct (Z.ltb_spec (- n) 0) as [_ | H]; [|lia].
  f_equal. lia.
Qed.

(** X10: after any number of insertions into a new store, asking for [n > 0]
    recent entries returns the last [min n capacity] entries of the log, in
    insertion order (all of the log when it is shorter). *)
Theorem X10_recent_context_is_log_tail (capacity : nat) (entries : list Entry) (n : Z) :
  (0 < n)%Z ->
  Memory.get_recent_context n (fold_left insert_entry entries (Memory.fresh capacity))
  = last_n (Nat.min (Z.to_nat n) capacity) (map interaction_of entries).
Proof.
  intros Hn. rewrite get_recent_context_positive by exact Hn.
  assert (buffer_tracks_log (fold_left insert_entry entries (Memory.fresh capacity))) as Ht
    by (apply insert_all_tracks; reflexivity).
  unfold buffer_tracks_log in Ht.
  rewrite Ht, insert_all_maxlen, insert_all_log. cbn [Memory.fresh Memory.maxlen
    Memory.interactions app].
  apply last_n_last_n.
Qed.

Lemma X10_recent_context_is_log_tail_witness :
  (0 < 1)%Z /\
  Memory.get_recent_context 1 (fold_left insert_entry three_entries (Memory.fresh 2))
  = last_n (Nat.min (Z.to_nat 1) 2) (map interaction_of three_entries).
Proof.
  split; [lia|].
  apply (X10_recent_context_is_log_tail 2 three_entries 1). lia.
Defined.

(** X11: [get_recent_context(0)] returns the whole buffer, not the empty
    list ([[-0:]] is the full slice), and a negative [n] drops the first
    [-n] entries of the buffer instead of selecting the last ones. *)
Theorem X11_recent_context_zero_and_negative (m : Memory.MemoryManager) :
  Memory.get_recent_context 0 m = Memory.short_term m /\
  forall k : nat,
    Memory.get_recent_context (- Z.of_nat k) m = drop k (Memory.short_term m).
Proof.
  assert (forall k : nat,
            Memory.get_recent_context (- Z.of_nat k) m = drop k (Memory.short_term m))
    as Hneg.
  { intros k. unfold Memory.get_recent_context, Py.slice_from.
    destruct (Z.ltb_spec (- - Z.of_nat k) 0) as [H | _]; [lia|].
    destruct (Z.min_spec (- - Z.of_nat k) (Z.of_nat (length (Memory.short_term m))))
      as [[_ ->] | [Hge ->]].
    - f_equal. lia.
    - rewrite Nat2Z.id, drop_all. symmetry. apply drop_ge. lia. }
  split; [exact (Hneg 0) | exact Hneg].
Qed.

(* ===================================================================== *)
(** * Memory store: what extraction records *)
(* ===================================================================== *)

Lemma string_app_cons (x : ascii) (a b : string) :
  String x a +:+ b = String x (a +:+ b).
Proof. reflexivity. Qed.

Lemma string_app_assoc (a b c : string) : (a +:+ b) +:+ c = a +:+ b +:+ c.
Proof.
  induction a as [|x a IH]; [reflexivity|].
  rewrite !string_app_cons. f_equal. exact IH.
Qed.

Lemma string_app_nil_r (a : string) : a +:+ EmptyString = a.
Proof.
  induction a as [|x a IH]; [reflexivity|].
  rewrite string_app_cons. f_equal. exact IH.
Qed.

Lemma string_app_inj (p a b : string) : p +:+ a = p +:+ b -> a = b.
Proof.
  induction p as [|x p IH]; [auto|].
  rewrite !string_app_cons. intros [= H]. auto.
Qed.

Lemma startswith_app (p x : string) : Py.startswith (p +:+ x) p = true.
Proof. unfold Py.startswith. apply prefix_app. now exists x. Qed.

Lemma fold_insert_lookup (key : string -> string) (v : Memory.Fact) (xs : list string)
      (m : gmap string Memory.Fact) (k : string) :
  fold_left (fun m x => <[key x := v]> m) xs m !! k
  = if decide (k ∈ map key xs) then Some v else m !! k.
Proof.
  revert m. induction xs as [|x xs IH]; intros m; cbn [fold_left map].
  - destruct (decide (k ∈ [])) as [H | _]; [inversion H | reflexivity].
  - rewrite IH.
    destruct (decide (k ∈ map key xs)) as [Hin | Hout].
    + rewrite decide_True by (apply elem_of_cons; now right). reflexivity.
    + destruct (decide (key x = k)) as [Heq | Hne].
      * rewrite decide_True by (apply elem_of_cons; now left).
        rewrite Heq. apply lookup_insert_eq.
      * rewrite decide_False.
        -- now apply lookup_insert_ne.
        -- intros H. apply elem_of_cons in H. destruct H as [H | H]; congruence.
Qed.

Lemma fold_insert_other_prefix (p : string) (v : Memory.Fact) (xs : list string)
      (m : gmap string Memory.Fact) (k : string) :
  Py.startswith k p = false ->
  fold_left (fun m x => <[p +:+ x := v]> m) xs m !! k = m !! k.
Proof.
  intros Hk. rewrite (fold_insert_lookup (fun x => p +:+ x)).
  rewrite decide_False; [reflexivity|].
  intros H. apply list_elem_of_fmap in H. destruct H as (x & -> & _).
  now rewrite startswith_app in Hk.
Qed.

Lemma extract_no_error_branch (i : Memory.Interaction) (long_term : gmap string Memory.Fact) :
  ~ mentions "error" (Memory.content i) -> ~ mentions "exception" (Memory.content i) ->
  Memory._extract_to_long_term i long_term = before_error_fact i long_term.
Proof.
  intros He Hx. unfold Memory._extract_to_long_term; cbv zeta.
  fold (before_error_fact i long_term).
  apply str_in_false in He. apply str_in_false in Hx. now rewrite He, Hx.
Qed.

(** Whatever the content, the extracted dictionary is the one before the
    error fact, with or without one more entry under an [error_] key. *)
Lemma extract_shape (i : Memory.Interaction) (long_term : gmap string Memory.Fact) :
  Memory._extract_to_long_term i long_term = before_error_fact i long_term \/
  exists j v,
    Memory._extract_to_long_term i long_term
    = <["error_" +:+ j := v]> (before_error_fact i long_term).
Proof.
  unfold Memory._extract_to_long_term; cbv zeta.
  fold (before_error_fact i long_term).
  destruct (Py.str_in "error" _ || Py.str_in "exception" _); eauto.
Qed.

Lemma before_error_fact_is_Some (i : Memory.Interaction) (long_term : gmap string Memory.Fact)
      (k : string) :
  is_Some (long_term !! k) -> is_Some (before_error_fact i long_term !! k).
Proof.
  intros H. unfold before_error_fact; cbv zeta.
  destruct (Py.str_in "def " _ || Py.str_in "class " _);
    destruct (Py.str_in "/" _ || Py.str_in "\" _);
    rewrite ?(fold_insert_lookup (fun x => "class_" +:+ x)),
            ?(fold_insert_lookup (fun x => "function_" +:+ x)),
            ?(fold_insert_lookup (fun x => "file_" +:+ x));
    repeat case_decide; eauto.
Qed.

Lemma before_error_fact_changes (i : Memory.Interaction) (long_term : gmap string Memory.Fact)
      (k : string) :
  before_error_fact i long_term !! k <> long_term !! k ->
  Py.startswith k "file_" = true \/ Py.startswith k "function_" = true \/
  Py.startswith k "class_" = true.
Proof.
  intros Hchg.
  destruct (Py.startswith k "file_") eqn:Hf; [auto|].
  destruct (Py.startswith k "function_") eqn:Hfn; [auto|].
  destruct (Py.startswith k "class_") eqn:Hc; [auto|].
  exfalso. apply Hchg. unfold before_error_fact; cbv zeta.
  destruct (Py.str_in "def " _ || Py.str_in "class " _);
    destruct (Py.str_in "/" _ || Py.str_in "\" _);
    now rewrite ?fold_insert_other_prefix by assumption.
Qed.

(** X12: [add_interaction] never removes a fact, and the only keys it adds
    or rebinds start with [file_], [function_], [class_] or [error_]. *)
Theorem X12_facts_are_never_removed
        (m : Memory.MemoryManager) (now role content : string)
        (metadata : option (gmap string Value)) (k : string) :
  let after := facts_after now role content metadata m in
  (is_Some (Memory.long_term m !! k) -> is_Some (after !! k)) /\
  (after !! k <> Memory.long_term m !! k -> known_prefix k).
Proof.
  unfold facts_after, Memory.add_interaction. cbn [Memory.long_term].
  set (i := {| Memory.timestamp := now; Memory.role := role; Memory.content := content;
               Memory.metadata := default ∅ metadata |}).
  destruct (extract_shape i (Memory.long_term m)) as [-> | (j & v & ->)]; split.
  - apply before_error_fact_is_Some.
  - intros H. apply before_error_fact_changes in H. unfold known_prefix. tauto.
  - intros H. apply (before_error_fact_is_Some i) in H.
    destruct (decide ("error_" +:+ j = k)) as [<- | Hne].
    + rewrite lookup_insert_eq. eauto.
    + now rewrite lookup_insert_ne.
  - intros H. unfold known_prefix.
    destruct (decide ("error_" +:+ j = k)) as [<- | Hne].
    + right. right. right. apply startswith_app.
    + rewrite lookup_insert_ne in H by exact Hne.
      apply before_error_fact_changes in H. tauto.
Qed.



(* ===================================================================== *)
(** * The matcher only reports text that is there *)
(* ===================================================================== *)

Lemma push_splits (c : ascii) (r : option (list string * string))
      (res : list string * string) (s : string) :
  (forall res', r = Some res' -> splits res' s) ->
  Re.push c r = Some res -> splits res (String c s).
Proof.
  intros Hr. destruct r as [[[|part parts] rest]|]; cbn [Re.push]; try discriminate.
  intros [= <-]. specialize (Hr _ eq_refl). unfold splits in *.
  cbn [fst snd Re.concat_parts fold_right] in *.
  rewrite !string_app_cons. f_equal. exact Hr.
Qed.

Lemma open_part_splits (r : option (list string * string))
      (res : list string * string) (s : string) :
  (forall res', r = Some res' -> splits res' s) ->
  Re.open_part r = Some res -> splits res s.
Proof.
  intros Hr. destruct r as [[parts rest]|]; cbn [Re.open_part]; try discriminate.
  intros [= <-]. specialize (Hr _ eq_refl). exact Hr.
Qed.

Lemma many_splits (p : ascii -> bool) (k : string -> option (list string * string)) :
  (forall s res, k s = Some res -> splits res s) ->
  forall s res, Re.many p k s = Some res -> splits res s.
Proof.
  intros Hk. induction s as [|c s IH]; intros res; cbn [Re.many].
  - apply open_part_splits. intros res'. apply Hk.
  - destruct (p c).
    + destruct (Re.push c (Re.many p k s)) as [r|] eqn:Hpush.
      * intros [= <-]. eapply push_splits; [|exact Hpush]. intros res'. apply IH.
      * apply open_part_splits. intros res'. apply Hk.
    + apply open_part_splits. intros res'. apply Hk.
Qed.

Lemma one_splits (p : ascii -> bool) (k : string -> option (list string * string)) :
  (forall s res, k s = Some res -> splits res s) ->
  forall s res, Re.one p k s = Some res -> splits res s.
Proof.
  intros Hk [|c s] res; cbn [Re.one]; [discriminate|].
  destruct (p c); [|discriminate].
  apply push_splits. intros res'. apply open_part_splits. intros res''. apply Hk.
Qed.

Lemma re_match_splits (r : list Re.Item) :
  forall s res, Re.re_match r s = Some res -> splits res s.
Proof.
  induction r as [|it r IH]; intros s res; cbn [Re.re_match].
  - intros [= <-]. reflexivity.
  - destruct (Re.quant it).
    + now apply one_splits.
    + destruct (Re.one (Re.cls it) (Re.re_match r) s) as [res'|] eqn:Hone.
      * intros [= <-]. eapply one_splits; [|exact Hone]. exact IH.
      * apply open_part_splits. intros res'. apply IH.
    + destruct s as [|c s]; [discriminate|].
      destruct (Re.cls it c); [|discriminate].
      apply push_splits. intros res'. now apply many_splits.
Qed.

Lemma substring_cons (x s : string) (c : ascii) :
  Py.Substring x s -> Py.Substring x (String c s).
Proof.
  intros (pre & post & ->). exists (String c pre), post. reflexivity.
Qed.

Lemma findall_from_substring (r : list Re.Item) :
  existsb Re.captured r = false ->
  forall s skip x, x ∈ Re.findall_from r skip s -> Py.Substring x s.
Proof.
  intros Hgroup.
  assert (forall s parts rest,
            Re.re_match r s = Some (parts, rest) ->
            Py.Substring (Re.reported r parts) s) as Hhit.
  { intros s parts rest H. apply re_match_splits in H. unfold splits in H.
    cbn [fst snd] in H. unfold Re.reported. rewrite Hgroup.
    exists EmptyString, rest. exact H. }
  induction s as [|c s IH]; intros skip x; destruct skip as [|skip];
    cbn [Re.findall_from].
  - destruct (Re.re_match r EmptyString) as [[parts rest]|] eqn:Hm.
    + intros H. apply list_elem_of_singleton in H. subst x. eapply Hhit, Hm.
    + intros H. inversion H.
  - intros H. inversion H.
  - destruct (Re.re_match r (String c s)) as [[parts rest]|] eqn:Hm.
    + intros H. apply elem_of_cons in H. destruct H as [-> | H].
      * eapply Hhit, Hm.
      * apply substring_cons. eapply IH, H.
    + intros H. apply substring_cons. eapply IH, H.
  - intros H. apply substring_cons. eapply IH, H.
Qed.

(** X14: a file fact is only recorded for a path that occurs in the content
    of the interaction: if [add_interaction] adds or changes the fact under
    [file_<p>], then [p] is a substring of the content, and the fact holds
    the time stamp of the interaction and the first 100 characters of the
    content. *)
Theorem X14_file_facts_come_from_the_content
        (m : Memory.MemoryManager) (now role content : string)
        (metadata : option (gmap string Value)) (p : string) :
  let after := facts_after now role content metadata m in
  after !! ("file_" +:+ p) <> Memory.long_term m !! ("file_" +:+ p) ->
  Py.Substring p content /\
  after !! ("file_" +:+ p) = Some (Memory.FileFact now (Py.take 100 content)).
Proof.
  unfold facts_after, Memory.add_interaction. cbn [Memory.long_term].
  set (i := {| Memory.timestamp := now; Memory.role := role; Memory.content := content;
               Memory.metadata := default ∅ metadata |}).
  set (k := "file_" +:+ p).
  assert (Py.startswith k "function_" = false /\ Py.startswith k "class_" = false /\
          Py.startswith k "error_" = false) as (Hfn & Hc & He)
    by (repeat split; reflexivity).
  assert (Memory._extract_to_long_term i (Memory.long_term m) !! k
          = before_error_fact i (Memory.long_term m) !! k) as ->.
  { destruct (extract_shape i (Memory.long_term m)) as [-> | (j & v & ->)]; [reflexivity|].
    apply lookup_insert_ne. intros Heq. rewrite <- Heq, startswith_app in He.
    discriminate. }
  unfold before_error_fact; cbv zeta. cbn [Memory.content Memory.timestamp i].
  assert (forall base : gmap string Memory.Fact,
            (if Py.str_in "def " content || Py.str_in "class " content
             then fold_left
                    (fun m0 cls => <["class_" +:+ cls := Memory.DefinitionFact now "class"]> m0)
                    (Re.findall Re.class_re content)
                    (fold_left
                       (fun m0 func =>
                          <["function_" +:+ func := Memory.DefinitionFact now "function"]> m0)
                       (Re.findall Re.def_re content) base)
             else base) !! k = base !! k) as Hdefs.
  { intros base. destruct (Py.str_in "def " content || Py.str_in "class " content);
      now rewrite ?fold_insert_other_prefix by assumption. }
  rewrite Hdefs.
  destruct (Py.str_in "/" content || Py.str_in "\" content); [|congruence].
  rewrite (fold_insert_lookup (fun x => "file_" +:+ x)).
  destruct (decide (k ∈ map (fun x => "file_" +:+ x) (Re.findall Re.path_re content)))
    as [Hin | Hout]; [|congruence].
  intros _. split; [|reflexivity].
  apply list_elem_of_fmap in Hin. destruct Hin as (q & Hq & Hin).
  apply string_app_inj in Hq. subst q.
  unfold Re.findall in Hin.
  eapply findall_from_substring; [|exact Hin]. reflexivity.
Qed.

Lemma X14_file_facts_come_from_the_content_witness :
  facts_after "t" "user" app_py_request None (Memory.fresh 100) !! ("file_" +:+ "src/app.py")
  <> Memory.long_term (Memory.fresh 100) !! ("file_" +:+ "src/app.py") /\
  Py.Substring "src/app.py" app_py_request.
Proof.
  assert (facts_after "t" "user" app_py_request None (Memory.fresh 100)
            !! ("file_" +:+ "src/app.py")
          <> Memory.long_term (Memory.fresh 100) !! ("file_" +:+ "src/app.py")) as H
    by (vm_compute; discriminate).
  split; [exact H|].
  exact (proj1 (X14_file_facts_come_from_the_content (Memory.fresh 100) "t" "user"
                  app_py_request None "src/app.py" H)).
Defined.

(* ===================================================================== *)
(** * Memory store: the counts of the session summary *)
(* ===================================================================== *)

Lemma str_of_nat_inj (a b : nat) : Py.str_of_nat a = Py.str_of_nat b -> a = b.
Proof.
  unfold Py.str_of_nat. intros H. apply Unsigned.to_uint_inj.
  assert (Some (Nat.to_uint a) = Some (Nat.to_uint b)) as Heq
    by (rewrite <- !NilEmpty.usu; now rewrite H).
  now injection Heq.
Qed.

Lemma error_key_inj (a b : nat) : error_key a = error_key b -> a = b.
Proof. unfold error_key. intros H. apply string_app_inj in H. now apply str_of_nat_inj. Qed.

Lemma prefix_count_insert_fresh (p k : string) (v : Memory.Fact)
      (long_term : gmap string Memory.Fact) :
  long_term !! k = None ->
  Memory.prefix_count p (<[k := v]> long_term)
  = if Py.startswith k p then S (Memory.prefix_count p long_term)
    else Memory.prefix_count p long_term.
Proof.
  intros Hk. unfold Memory.prefix_count. rewrite map_filter_insert. cbn [fst].
  destruct (Py.startswith k p) eqn:Hp.
  - rewrite decide_True by exact I.
    apply map_size_insert_None. apply map_lookup_filter_None_2. now left.
  - rewrite decide_False by exact id. now rewrite delete_id.
Qed.

Lemma before_error_fact_error_key (i : Memory.Interaction)
      (long_term : gmap string Memory.Fact) (j : nat) :
  before_error_fact i long_term !! error_key j = long_term !! error_key j.
Proof.
  unfold before_error_fact; cbv zeta.
  destruct (Py.str_in "def " _ || Py.str_in "class " _);
    destruct (Py.str_in "/" _ || Py.str_in "\" _);
    now rewrite ?fold_insert_other_prefix by reflexivity.
Qed.

Lemma mentions_error_spec (i : Memory.Interaction) :
  mentions_error i = true <->
  mentions "error" (Memory.content i) \/ mentions "exception" (Memory.content i).
Proof.
  unfold mentions_error, mentions. rewrite orb_true_iff, !str_in_spec. reflexivity.
Qed.

Lemma extract_error_count (i : Memory.Interaction) (long_term : gmap string Memory.Fact) :
  error_keys_dense long_term ->
  error_keys_dense (Memory._extract_to_long_term i long_term) /\
  Memory.error_count (Memory._extract_to_long_term i long_term)
  = Memory.error_count long_term + (if mentions_error i then 1 else 0).
Proof.
  intros Hdense.
  destruct (mentions_error i) eqn:Herr.
  - apply mentions_error_spec in Herr. rewrite (extract_error_branch i) by exact Herr.
    rewrite error_count_before_error_fact.
    set (n := Memory.error_count long_term).
    fold (error_key n).
    assert (before_error_fact i long_term !! error_key n = None) as Hfresh.
    { rewrite before_error_fact_error_key. apply eq_None_not_Some.
      intros H. apply Hdense in H. fold n in H. lia. }
    assert (Memory.error_count (<[error_key n := Memory.ErrorFact (Memory.timestamp i)
                                    (Py.take 200 (Memory.content i))]>
                                  (before_error_fact i long_term)) = n + 1) as Hcount.
    { change Memory.error_count with (Memory.prefix_count "error_").
      rewrite prefix_count_insert_fresh by exact Hfresh.
      unfold error_key. rewrite startswith_app.
      change (Memory.prefix_count "error_") with Memory.error_count.
      rewrite error_count_before_error_fact. fold n. lia. }
    split; [|exact Hcount].
    intros j. rewrite Hcount.
    destruct (decide (j = n)) as [-> | Hne].
    + rewrite lookup_insert_eq. split; [lia | eauto].
    + rewrite lookup_insert_ne by (intros H; apply error_key_inj in H; congruence).
      rewrite before_error_fact_error_key.
      specialize (Hdense j). fold n in Hdense.
      split; intros H; [apply Hdense in H; lia | apply Hdense; lia].
  - assert (~ mentions "error" (Memory.content i) /\ ~ mentions "exception" (Memory.content i))
      as [He Hx].
    { split; intros H; assert (mentions_error i = true) as Habs
        by (apply mentions_error_spec; auto); congruence. }
    rewrite (extract_no_error_branch i) by assumption.
    rewrite error_count_before_error_fact, Nat.add_0_r. split; [|reflexivity].
    intros j. rewrite before_error_fact_error_key, error_count_before_error_fact.
    apply Hdense.
Qed.

Lemma insert_all_error_count (entries : list Entry) (m : Memory.MemoryManager) :
  error_keys_dense (Memory.long_term m) ->
  Memory.error_count (Memory.long_term m)
  = length (List.filter mentions_error (Memory.interactions m)) ->
  let m' := fold_left insert_entry entries m in
  error_keys_dense (Memory.long_term m') /\
  Memory.error_count (Memory.long_term m')
  = length (List.filter mentions_error (Memory.interactions m')).
Proof.
  revert m. induction entries as [|e entries IH]; intros m Hdense Hcount;
    cbn [fold_left]; [auto|].
  apply IH.
  - unfold insert_entry, Memory.add_interaction. cbn [Memory.long_term].
    now apply extract_error_count.
  - unfold insert_entry, Memory.add_interaction.
    cbn [Memory.long_term Memory.interactions].
    change {| Memory.timestamp := e_now e; Memory.role := e_role e;
              Memory.content := e_content e;
              Memory.metadata := default ∅ (e_metadata e) |}
      with (interaction_of e).
    rewrite List.filter_app, length_app.
    destruct (extract_error_count (interaction_of e) (Memory.long_term m) Hdense)
      as [_ Hstep].
    rewrite Hstep, Hcount. cbn [List.filter].
    now destruct (mentions_error (interaction_of e)).
Qed.

(** X15: in a store filled by [add_interaction] alone, no error fact is ever
    overwritten: [errors_encountered] is the number of logged interactions
    whose content contains "error" or "exception" in any letter case, and
    the keys in use are exactly [error_0] to [error_<n-1>]. *)
Theorem X15_error_facts_count_the_log (capacity : nat) (entries : list Entry) :
  let m := fold_left insert_entry entries (Memory.fresh capacity) in
  let n := Memory.errors_encountered (Memory.summarize_session m) in
  n = length (List.filter mentions_error (Memory.interactions m)) /\
  forall j, is_Some (Memory.long_term m !! error_key j) <-> j < n.
Proof.
  destruct (insert_all_error_count entries (Memory.fresh capacity)) as [Hdense Hcount].
  - intros j. cbn [Memory.long_term Memory.fresh]. rewrite lookup_empty.
    change (Memory.error_count ∅) with 0.
    split; [intros [x H]; discriminate | lia].
  - reflexivity.
  - split; [exact Hcount | exact Hdense].
Qed.

Lemma extract_new_keys_known (i : Memory.Interaction) (long_term : gmap string Memory.Fact)
      (k : string) :
  is_Some (Memory._extract_to_long_term i long_term !! k) ->
  is_Some (long_term !! k) \/ known_prefix k.
Proof.
  assert (is_Some (before_error_fact i long_term !! k) ->
          is_Some (long_term !! k) \/ known_prefix k) as Hbefore.
  { intros H. destruct (long_term !! k) as [x|] eqn:Hk; [left; eauto|].
    right. assert (before_error_fact i long_term !! k <> long_term !! k) as Hchg.
    { rewrite Hk. destruct H as [y ->]. discriminate. }
    apply before_error_fact_changes in Hchg. unfold known_prefix. tauto. }
  destruct (extract_shape i long_term) as [-> | (j & v & ->)]; [exact Hbefore|].
  destruct (decide ("error_" +:+ j = k)) as [<- | Hne].
  - intros _. right. unfold known_prefix. right. right. right. apply startswith_app.
  - now rewrite lookup_insert_ne.
Qed.

Lemma insert_all_known (entries : list Entry) (m : Memory.MemoryManager) :
  all_known (Memory.long_term m) ->
  all_known (Memory.long_term (fold_left insert_entry entries m)).
Proof.
  revert m. induction entries as [|e entries IH]; intros m Hm; cbn [fold_left]; [exact Hm|].
  apply IH. unfold insert_entry, Memory.add_interaction. cbn [Memory.long_term].
  intros k Hk. apply extract_new_keys_known in Hk. destruct Hk as [Hk | Hk]; auto.
Qed.

Lemma one_kind_per_key (k : string) :
  known_prefix k ->
  (if Py.startswith k "file_" then 1 else 0) +
  (if Py.startswith k "function_" then 1 else 0) +
  (if Py.startswith k "class_" then 1 else 0) +
  (if Py.startswith k "error_" then 1 else 0) = 1.
Proof.
  unfold known_prefix, Py.startswith.
  intros [H | [H | [H | H]]]; apply prefix_app in H; destruct H as [post ->];
    destruct post; reflexivity.
Qed.

Lemma kinds_partition (long_term : gmap string Memory.Fact) :
  all_known long_term ->
  Memory.prefix_count "file_" long_term + Memory.prefix_count "function_" long_term +
  Memory.prefix_count "class_" long_term + Memory.prefix_count "error_" long_term
  = size long_term.
Proof.
  induction long_term as [|k v long_term Hk IH] using map_ind; intros Hall.
  - reflexivity.
  - assert (all_known long_term) as Hrest.
    { intros k' Hk'. apply Hall. rewrite lookup_insert_ne; [exact Hk'|].
      intros <-. rewrite Hk in Hk'. now destruct Hk'. }
    assert (known_prefix k) as Hkind
      by (apply Hall; rewrite lookup_insert_eq; eauto).
    rewrite !prefix_count_insert_fresh by exact Hk.
    rewrite map_size_insert_None by exact Hk.
    specialize (IH Hrest). pose proof (one_kind_per_key k Hkind) as Hone.
    destruct (Py.startswith k "file_"), (Py.startswith k "function_"),
      (Py.startswith k "class_"), (Py.startswith k "error_"); cbn in Hone; lia.
Qed.

(** X16: in a store filled by [add_interaction] alone, every fact is counted
    by the session summary exactly once: files, functions, classes and
    errors add up to the size of the long-term dictionary. *)
Theorem X16_summary_counts_every_fact_once (capacity : nat) (entries : list Entry) :
  let m := fold_left insert_entry entries (Memory.fresh capacity) in
  let summary := Memory.summarize_session m in
  Memory.files_mentioned summary + Memory.functions_defined summary +
  Memory.classes_defined summary + Memory.errors_encountered summary
  = size (Memory.long_term m) /\
  Memory.total_interactions summary = length entries.
Proof.
  cbv zeta. unfold Memory.summarize_session.
  cbn [Memory.files_mentioned Memory.functions_defined Memory.classes_defined
       Memory.errors_encountered Memory.total_interactions].
  split.
  - apply kinds_partition, insert_all_known.
    intros k Hk. cbn in Hk. rewrite lookup_empty in Hk. now destruct Hk.
  - rewrite insert_all_log. cbn. now rewrite length_map.
Qed.

(* ===================================================================== *)
(** * Memory store: searching *)
(* ===================================================================== *)

Lemma str_in_empty (s : string) : Py.str_in EmptyString s = true.
Proof. destruct s; reflexivity. Qed.

Lemma filter_all {A} (f : A -> bool) (l : list A) :
  (forall x, f x = true) -> List.filter f l = l.
Proof.
  intros H. induction l as [|x l IH]; cbn [List.filter]; [reflexivity|].
  now rewrite H, IH.
Qed.

(** X17: in a store filled by [add_interaction] alone, a short-term search
    looks at the last [capacity] interactions only, while the file history
    looks at the whole log: an interaction that has left the buffer is no
    longer found by [search_memory] but still by [get_file_history]. *)
Theorem X17_search_sees_the_buffer_history_the_log
        (str_of_value : Memory.Fact -> string)
        (capacity : nat) (entries : list Entry) (query : string) :
  let m := fold_left insert_entry entries (Memory.fresh capacity) in
  let log := map interaction_of entries in
  Memory.search_memory str_of_value query "short_term" m
  = (List.filter (fun i => Py.str_in (Py.lower query) (Py.lower (Memory.content i)))
                 (last_n capacity log), ∅) /\
  Memory.get_file_history query m
  = List.filter (fun i => Py.str_in query (Memory.content i)) log.
Proof.
  cbv zeta. split.
  - unfold Memory.search_memory. cbn [String.eqb Ascii.eqb Bool.eqb orb].
    assert (buffer_tracks_log (fold_left insert_entry entries (Memory.fresh capacity))) as Ht
      by (apply insert_all_tracks; reflexivity).
    unfold buffer_tracks_log in Ht.
    rewrite Ht, insert_all_maxlen, insert_all_log. reflexivity.
  - unfold Memory.get_file_history. rewrite insert_all_log. reflexivity.
Qed.

(** X18: [search_memory] with a memory type other than [short_term],
    [long_term] and [all] finds nothing; with the empty query and [all] it
    returns the whole buffer and every fact; and a fact whose key contains
    the query, in any letter case, is always among the long-term hits. *)
Theorem X18_search_memory_edges
        (str_of_value : Memory.Fact -> string) (m : Memory.MemoryManager) :
  (forall query memory_type,
     memory_type <> "short_term" -> memory_type <> "long_term" -> memory_type <> "all" ->
     Memory.search_memory str_of_value query memory_type m = ([], ∅)) /\
  Memory.search_memory str_of_value EmptyString "all" m
  = (Memory.short_term m, Memory.long_term m) /\
  (forall query k v,
     Memory.long_term m !! k = Some v ->
     mentions (Py.lower query) k ->
     snd (Memory.search_memory str_of_value query "long_term" m) !! k = Some v /\
     snd (Memory.search_memory str_of_value query "all" m) !! k = Some v).
Proof.
  split; [|split].
  - intros query memory_type H1 H2 H3. unfold Memory.search_memory.
    apply String.eqb_neq in H1, H2, H3. now rewrite H1, H2, H3.
  - unfold Memory.search_memory. cbn [String.eqb Ascii.eqb Bool.eqb orb Py.lower].
    f_equal.
    + apply filter_all. intros x. apply str_in_empty.
    + apply map_filter_id. intros k v _. cbn. now rewrite str_in_empty.
  - intros query k v Hk Hq. unfold mentions in Hq. apply str_in_spec in Hq.
    unfold Memory.search_memory. cbn [String.eqb Ascii.eqb Bool.eqb orb snd].
    split; apply map_lookup_filter_Some; (split; [exact Hk|]); cbn [fst snd];
      now rewrite Hq.
Qed.

(* ===================================================================== *)
(** * Memory store: constructing from a saved file *)
(* ===================================================================== *)

Lemma last_n_all {A} (n : nat) (l : list A) : length l <= n -> last_n n l = l.
Proof. intros H. unfold last_n. replace (length l - n) with 0 by lia. apply drop_0. Qed.

Lemma last_n_app_ge {A} (n : nat) (d xs : list A) :
  n <= length xs -> last_n n (d ++ xs) = last_n n xs.
Proof.
  intros H. unfold last_n. rewrite length_app, drop_app.
  rewrite drop_ge by lia. cbn [app]. f_equal. lia.
Qed.

Lemma fold_deque_append_closed (cap : nat) (xs d : list Memory.Interaction) :
  length d <= cap ->
  fold_left (Memory.deque_append cap) xs d = last_n cap (d ++ xs).
Proof.
  intros H. rewrite <- (last_n_all cap d H) at 1. apply fold_deque_append_last_n.
Qed.

(** X19: a store constructed on the file another store has saved holds the
    saved log and facts, and its buffer is the last [max_short_term]
    entries of that log. *)
Theorem X19_construct_from_saved_file
        (Blob : Type) (pickle_dump : Memory.MemoryData -> Blob)
        (pickle_load : Blob -> option Memory.MemoryData)
        (now path : string) (m : Memory.MemoryManager) (disk : gmap string Blob)
        (max_short_term : nat) :
  (forall d, pickle_load (pickle_dump d) = Some d) ->
  Memory.persistence_path m = Some path ->
  path <> EmptyString ->
  let m' := Memory.init Blob pickle_load max_short_term (Some path)
              (Memory.save_memory Blob pickle_dump now m disk) in
  Memory.interactions m' = Memory.interactions m /\
  Memory.long_term m' = Memory.long_term m /\
  Memory.short_term m' = last_n max_short_term (Memory.interactions m) /\
  Memory.maxlen m' = max_short_term.
Proof.
  intros Hrt Hm Hpath. unfold Memory.init.
  set (m0 := {| Memory.short_term := []; Memory.maxlen := max_short_term;
                Memory.long_term := ∅; Memory.interactions := [];
                Memory.persistence_path := _ |}).
  assert (Memory.persistence_path m0 = Some path) as Hm0
    by (unfold m0; cbn; destruct path; [contradiction | reflexivity]).
  destruct (load_after_save Blob pickle_dump pickle_load Hrt now path m m0 disk Hm Hm0)
    as (Hlog & Hfacts & _).
  pose proof (load_into_empty_buffer Blob pickle_dump pickle_load Hrt now path m m0 disk
                Hm Hm0 eq_refl) as Hbuf.
  cbv zeta in Hbuf. rewrite Hlog in Hbuf.
  cbv zeta. repeat split; try assumption.
  apply load_memory_maxlen.
Qed.

Lemma X19_construct_from_saved_file_witness :
  let m := fold_left insert_entry three_entries
             (Memory.init Memory.MemoryData (fun d => Some d) 2 (Some "memory.pkl") ∅) in
  let m' := Memory.init Memory.MemoryData (fun d => Some d) 2 (Some "memory.pkl")
              (Memory.save_memory Memory.MemoryData (fun d => d) "t4" m ∅) in
  Memory.persistence_path m = Some "memory.pkl" /\
  Memory.interactions m' = Memory.interactions m /\
  Memory.short_term m' = last_n 2 (Memory.interactions m).
Proof.
  intros m m'.
  assert (Memory.persistence_path m = Some "memory.pkl") as Hm by reflexivity.
  split; [exact Hm|].
  destruct (X19_construct_from_saved_file Memory.MemoryData (fun d => d) (fun d => Some d)
              "t4" "memory.pkl" m ∅ 2) as (Hlog & _ & Hbuf & _).
  - intros d. reflexivity.
  - exact Hm.
  - discriminate.
  - split; [exact Hlog | exact Hbuf].
Defined.

(** X20: [load_memory] on a store within its capacity leaves in the buffer
    the last [maxlen] entries of the old buffer followed by the tail of the
    restored log; when the restored log has at least [maxlen] entries that
    is exactly the last [maxlen] entries of the log. *)
Theorem X20_load_memory_buffer
        (Blob : Type) (pickle_dump : Memory.MemoryData -> Blob)
        (pickle_load : Blob -> option Memory.MemoryData)
        (now path : string) (m m0 : Memory.MemoryManager) (disk : gmap string Blob) :
  (forall d, pickle_load (pickle_dump d) = Some d) ->
  Memory.persistence_path m = Some path ->
  Memory.persistence_path m0 = Some path ->
  bounded m0 ->
  let m' := Memory.load_memory Blob pickle_load m0
              (Memory.save_memory Blob pickle_dump now m disk) in
  let cap := Memory.maxlen m0 in
  Memory.short_term m'
  = last_n cap (Memory.short_term m0 ++ Py.slice_from (- Z.of_nat cap) (Memory.interactions m)) /\
  (cap <= length (Memory.interactions m) ->
   Memory.short_term m' = last_n cap (Memory.interactions m)).
Proof.
  intros Hrt Hm Hm0 Hb m' cap.
  destruct (load_after_save Blob pickle_dump pickle_load Hrt now path m m0 disk Hm Hm0)
    as (_ & _ & Hbuf).
  fold m' cap in Hbuf. rewrite fold_deque_append_closed in Hbuf by exact Hb.
  split; [exact Hbuf|].
  intros Hlong. rewrite Hbuf, last_n_app_ge; [apply last_n_slice|].
  unfold Py.slice_from. subst cap.
  destruct (Z.ltb_spec (- Z.of_nat (Memory.maxlen m0)) 0) as [Hneg | Hzero];
    rewrite length_drop.
  - rewrite Z.max_l by lia. lia.
  - rewrite Z.min_l by lia. lia.
Qed.

Lemma X20_load_memory_buffer_witness :
  let m := fold_left insert_entry three_entries
             (Memory.init Memory.MemoryData (fun d => Some d) 2 (Some "memory.pkl") ∅) in
  let m' := Memory.load_memory Memory.MemoryData (fun d => Some d) m
              (Memory.save_memory Memory.MemoryData (fun d => d) "t4" m ∅) in
  bounded m /\ 2 <= length (Memory.interactions m) /\
  Memory.short_term m' = last_n 2 (Memory.interactions m).
Proof.
  intros m m'.
  assert (Memory.persistence_path m = Some "memory.pkl") as Hm by reflexivity.
  assert (bounded m) as Hb by (unfold bounded, m; vm_compute; lia).
  assert (2 <= length (Memory.interactions m)) as Hlong by (unfold m; vm_compute; lia).
  split; [exact Hb|]. split; [exact Hlong|].
  exact (proj2 (X20_load_memory_buffer Memory.MemoryData (fun d => d) (fun d => Some d)
                  "t4" "memory.pkl" m m ∅ (fun d => eq_refl) Hm Hm Hb) Hlong).
Defined.

(* ===================================================================== *)
(** * Orchestrator: artifacts *)
(* ===================================================================== *)

Lemma extend_with_default (acc : list string) (more : option (list string)) :
  Core.extend_with acc more = acc ++ default [] more.
Proof. destruct more; cbn; [reflexivity | now rewrite app_nil_r]. Qed.

Lemma collect_fold (results : list TaskResult) (acc : Core.Artifacts) :
  fold_left
    (fun acc result =>
       match Task.artifacts result with
       | Some ra =>
           {| Core.files_created :=
                Core.extend_with (Core.files_created acc) (Task.r_files_created ra);
              Core.files_modified :=
                Core.extend_with (Core.files_modified acc) (Task.r_files_modified ra);
              Core.commands_executed :=
                Core.extend_with (Core.commands_executed acc) (Task.r_commands_executed ra);
              Core.errors := Core.extend_with (Core.errors acc) (Task.r_errors ra) |}
       | None => acc
       end)
    results acc
  = {| Core.files_created := Core.files_created acc ++ gathered Task.r_files_created results;
       Core.files_modified := Core.files_modified acc ++ gathered Task.r_files_modified results;
       Core.commands_executed :=
         Core.commands_executed acc ++ gathered Task.r_commands_executed results;
       Core.errors := Core.errors acc ++ gathered Task.r_errors results |}.
Proof.
  revert acc. induction results as [|r results IH]; intros acc; cbn [fold_left].
  - unfold gathered. cbn. rewrite !app_nil_r. now destruct acc.
  - rewrite IH. unfold gathered. cbn [map concat].
    destruct (Task.artifacts r) as [ra|];
      cbn [Core.files_created Core.files_modified Core.commands_executed Core.errors].
    + rewrite !extend_with_default, <- !app_assoc. reflexivity.
    + reflexivity.
Qed.

(** X21: each of the four artifact lists of a response is the concatenation,
    in task order and without deduplication, of that category over all
    results, failed ones included; results without artifacts or without the
    category contribute nothing. *)
Theorem X21_collect_artifacts (results : list TaskResult) :
  let collected := Core._collect_artifacts results in
  Core.files_created collected = gathered Task.r_files_created results /\
  Core.files_modified collected = gathered Task.r_files_modified results /\
  Core.commands_executed collected = gathered Task.r_commands_executed results /\
  Core.errors collected = gathered Task.r_errors results.
Proof.
  unfold Core._collect_artifacts. rewrite collect_fold. cbn. auto.
Qed.

Lemma gathered_app (category : Task.ResultArtifacts -> option (list string))
      (rs rs' : list TaskResult) :
  gathered category (rs ++ rs') = gathered category rs ++ gathered category rs'.
Proof. unfold gathered. now rewrite map_app, concat_app. Qed.

(** X22: the result the dispatcher builds for a handler that raised adds one
    to [total_tasks] and nothing else to the response: summary, code
    changes, the count of successful tasks and all four artifact lists
    are as without it. *)
Theorem X22_failure_result_only_counts (results : list TaskResult) (e task : string) :
  let failed := Executor.failure_result e task in
  let before := Core._synthesize_response results in
  let after := Core._synthesize_response (results ++ [failed]) in
  Core.total_tasks after = S (Core.total_tasks before) /\
  Core.successful_tasks after = Core.successful_tasks before /\
  Core.s_summary after = Core.s_summary before /\
  Core.s_code_changes after = Core.s_code_changes before /\
  Core._collect_artifacts (results ++ [failed]) = Core._collect_artifacts results.
Proof.
  cbv zeta.
  assert (successful (results ++ [Executor.failure_result e task]) = successful results)
    as Hsucc.
  { unfold successful. rewrite List.filter_app. cbn. apply app_nil_r. }
  unfold Core._synthesize_response.
  rewrite !synthesize_fold, !count_successful_fold, Hsucc.
  cbn [Core.total_tasks Core.successful_tasks Core.s_summary Core.s_code_changes].
  repeat split.
  - rewrite length_app. cbn. lia.
  - unfold Core._collect_artifacts. rewrite !collect_fold.
    rewrite !gathered_app. unfold gathered at 2 4 6 8. cbn. now rewrite !app_nil_r.
Qed.

(* ===================================================================== *)
(** * Orchestrator: what a request leaves behind *)
(* ===================================================================== *)

Section Trace.

Variable World : Type.
Variable clock : nat -> string.
Variable planner : string -> gmap string Value -> Exc Planner.TaskPlan.
Variable executor : string -> gmap string Value -> World -> Exc TaskResult * World.

Lemma log_view_remember (role content : string) (a : Core.DevonAgent World) :
  log_view (Core.memory World (Core.remember World clock role content a))
  = log_view (Core.memory World a) ++ [(role, content)].
Proof.
  unfold log_view, Core.remember, Memory.add_interaction.
  cbn [Core.memory Memory.interactions]. now rewrite map_app.
Qed.

(** One turn of the loop, seen from the log and [current_task]. *)
Lemma run_task_logs (task : string) (a a' : Core.DevonAgent World) (out : Exc TaskResult) :
  Core.run_task World clock executor task a = (out, a') ->
  match out with
  | inl _ => log_view (Core.memory World a') = log_view (Core.memory World a)
  | inr _ =>
      log_view (Core.memory World a')
      = log_view (Core.memory World a) ++ [completed_entry task] /\
      Core.current_task (Core.state World a') = Some task
  end.
Proof.
  unfold Core.run_task.
  destruct (executor task _ _) as [[e | result] w].
  - intros [= <- <-]. reflexivity.
  - destruct (Core.remove_pending World task _) as [a1|] eqn:Hrem.
    + intros [= <- <-]. rewrite log_view_remember. split.
      * unfold Core.remove_pending in Hrem.
        destruct (Py.list_remove task _); [|discriminate].
        injection Hrem as <-. reflexivity.
      * unfold Core.remove_pending in Hrem.
        destruct (Py.list_remove task _); [|discriminate].
        injection Hrem as <-. reflexivity.
    + intros [= <- <-]. reflexivity.
Qed.

Lemma last_or_cons (previous : option string) (task : string) (new : list string) :
  last_or previous (task :: new) = last_or (Some task) new.
Proof.
  unfold last_or. destruct new as [|s new]; [reflexivity|].
  change (last (task :: s :: new)) with (last (s :: new)).
  destruct (last (s :: new)) eqn:Hlast; [reflexivity|].
  apply last_None in Hlast. discriminate.
Qed.

(** The loop in full: what it appends to the completed list, which lists it
    leaves alone, what it logs, and the task [current_task] names at the
    end. *)
Lemma task_loop_trace (p : Core.loc) (fuel : nat) :
  forall (i : nat) (a : Core.DevonAgent World) (results : list TaskResult),
    in_loop World p a ->
    length (Core.deref (Core.heap World a) p) - i < fuel ->
    let done := Core.completed_tasks (Core.state World a) in
    exists out a' new,
      Core.task_loop World clock executor fuel p i a results = Some (out, a') /\
      Core.deref (Core.heap World a') done = Core.deref (Core.heap World a) done ++ new /\
      (forall l, l <> p -> l <> done ->
         Core.deref (Core.heap World a') l = Core.deref (Core.heap World a) l) /\
      log_view (Core.memory World a')
      = log_view (Core.memory World a) ++ map completed_entry new /\
      (forall rs, out = inr rs ->
         Core.current_task (Core.state World a')
         = last_or (Core.current_task (Core.state World a)) new).
Proof.
  induction fuel as [|fuel IH]; intros i a results Hinv Hfuel; [lia|].
  cbn zeta. cbn [Core.task_loop].
  destruct (Core.deref (Core.heap World a) p !! i) as [task|] eqn:Hlook.
  - assert (task ∈ Core.deref (Core.heap World a) p) as Hin
      by (apply list_elem_of_lookup; eauto).
    apply lookup_lt_Some in Hlook.
    destruct (Core.run_task World clock executor task a) as [[e | result] a1] eqn:Hrun.
    + destruct (run_task_turn World clock executor p task a a1 (inl e) Hinv Hin Hrun)
        as (_ & Hdone1 & _ & Hframe & _ & Hsame).
      pose proof (run_task_logs task a a1 (inl e) Hrun) as Hlog.
      exists (inl e), a1, []. cbn [map]. rewrite !app_nil_r.
      repeat split; try assumption. discriminate.
    + destruct (run_task_turn World clock executor p task a a1 (inr result) Hinv Hin Hrun)
        as (Hinv1 & Hdone1 & _ & Hframe & Hrem & Happ & _).
      pose proof (run_task_logs task a a1 (inr result) Hrun) as [Hlog Hcur].
      pose proof (list_remove_length _ _ _ Hrem) as Hlen.
      destruct (IH (S i) a1 (results ++ [result]) Hinv1 ltac:(lia))
        as (out & a' & new & Hloop & Hnew & Hframe' & Hlog' & Hcur').
      rewrite Hdone1 in Hnew, Hframe'.
      exists out, a', (task :: new). rewrite Hloop.
      repeat split.
      * rewrite Hnew, Happ, <- app_assoc. reflexivity.
      * intros l Hl1 Hl2. rewrite Hframe', Hframe by assumption. reflexivity.
      * rewrite Hlog', Hlog, <- app_assoc. reflexivity.
      * intros rs Hrs. rewrite (Hcur' rs Hrs), Hcur. symmetry. apply last_or_cons.
  - exists (inr results), a, []. cbn [map]. rewrite !app_nil_r.
    repeat split; auto.
Qed.

(** A whole request: the response, the completed list, the lists left
    alone, the log and [current_task]. *)
Lemma process_request_trace (user_request : string) (a : Core.DevonAgent World) :
  well_formed World a ->
  let done := Core.completed_tasks (Core.state World a) in
  exists response a' new,
    Core.process_request World clock planner executor user_request a = Some (response, a') /\
    Core.tasks_completed response = done /\
    Core.completed_tasks (Core.state World a') = done /\
    Core.deref (Core.heap World a') done = Core.deref (Core.heap World a) done ++ new /\
    (forall l, l < length (Core.heap World a) -> l <> done ->
       Core.deref (Core.heap World a') l = Core.deref (Core.heap World a) l) /\
    log_view (Core.memory World a')
    = log_view (Core.memory World a) ++ [("user", user_request)] ++
      map completed_entry new ++ closing_entries response /\
    (forall r l c, response = Core.Completed r l c ->
       Core.current_task (Core.state World a')
       = last_or (Core.current_task (Core.state World a)) new).
Proof.
  intros Hwf done. unfold well_formed in Hwf. unfold Core.process_request.
  change (Core.context (Core.state World (Core.remember World clock "user" user_request a)))
    with (Core.context (Core.state World a)).
  destruct (planner user_request _) as [e | plan].
  - eexists _, _, []. split; [reflexivity|].
    rewrite log_view_remember. cbn [map closing_entries app]. rewrite !app_nil_r.
    repeat split; auto; discriminate.
  - unfold Core.adopt_plan.
    change (Core.heap World (Core.remember World clock "user" user_request a))
      with (Core.heap World a).
    set (a0 := Core.with_state World _ _).
    assert (in_loop World (length (Core.heap World a)) a0) as Hinv.
    { unfold in_loop, a0. cbn. rewrite length_app. cbn. repeat split; lia. }
    destruct (task_loop_trace (length (Core.heap World a))
                (S (length (Planner.tasks plan))) 0 a0 [] Hinv)
      as (out & a' & new & Hloop & Hnew & Hframe & Hlog & Hcur).
    { unfold a0. cbn. rewrite deref_app_new. lia. }
    destruct (task_loop_appends World clock executor (length (Core.heap World a))
                (S (length (Planner.tasks plan))) 0 a0 [] Hinv)
      as (out2 & a2 & _ & Hloop2 & _ & Hdone' & _).
    { unfold a0. cbn. rewrite deref_app_new. lia. }
    rewrite Hloop in Hloop2. injection Hloop2 as <- <-.
    rewrite Hloop.
    change (Core.completed_tasks (Core.state World a0)) with done in Hdone', Hnew, Hframe.
    assert (forall l, l < length (Core.heap World a) ->
              Core.deref (Core.heap World a0) l = Core.deref (Core.heap World a) l) as Hold
      by (intros l Hl; unfold a0; cbn; now rewrite deref_app_l).
    rewrite (Hold done Hwf) in Hnew.
    assert (log_view (Core.memory World a0)
            = log_view (Core.memory World a) ++ [("user", user_request)]) as Hlog0
      by (unfold a0; cbn [Core.with_state Core.with_heap Core.memory];
          apply log_view_remember).
    rewrite Hlog0 in Hlog.
    assert (forall l, l < length (Core.heap World a) -> l <> done ->
              Core.deref (Core.heap World a') l = Core.deref (Core.heap World a) l)
      as Hframe0.
    { intros l Hl Hne. rewrite Hframe by (lia || exact Hne). now apply Hold. }
    destruct out as [e | results].
    + exists (Core.Failed e (Core.completed_tasks (Core.state World a'))), a', new.
      rewrite Hdone'. cbn [closing_entries Core.tasks_completed]. rewrite app_nil_r.
      rewrite <- app_assoc in Hlog.
      repeat split; auto. discriminate.
    + eexists _, _, new. split; [reflexivity|].
      rewrite log_view_remember.
      cbn [Core.remember Core.state Core.heap Core.tasks_completed closing_entries].
      rewrite Hdone', Hlog, <- !app_assoc.
      repeat split; auto.
      intros r l c _. apply (Hcur results eq_refl).
Qed.

End Trace.

(** X23.  [reset] starts afresh without touching the lists handed out
    before: right after it [get_state] shows no current task, empty completed
    and pending lists, an empty log and an empty context; the next request,
    whatever the planner and the dispatcher do, returns a completed list that
    holds the tasks of that request only, its log holds that request's
    entries only, and every list object that existed before the reset (such
    as the [tasks_completed] of an earlier response) still has its
    content. *)
Theorem X23_reset_starts_afresh
        (World : Type) (clock : nat -> string)
        (planner : string -> gmap string Value -> Exc Planner.TaskPlan)
        (executor : string -> gmap string Value -> World -> Exc TaskResult * World)
        (a : Core.DevonAgent World) (user_request : string) :
  Core.get_state World (Core.reset World a)
  = {| Core.v_current_task := None;
       Core.v_completed_tasks := [];
       Core.v_pending_tasks := [];
       Core.v_memory_size := 0;
       Core.v_context := ∅ |} /\
  exists response a' new,
    Core.process_request World clock planner executor user_request (Core.reset World a)
    = Some (response, a') /\
    Core.deref (Core.heap World a') (Core.tasks_completed response) = new /\
    Core.v_completed_tasks (Core.get_state World a') = new /\
    log_view (Core.memory World a')
    = ("user", user_request) :: map completed_entry new ++ closing_entries response /\
    forall l, l < length (Core.heap World a) ->
              Core.deref (Core.heap World a') l = Core.deref (Core.heap World a) l.
Proof.
  assert (Core.deref (Core.heap World (Core.reset World a))
            (Core.completed_tasks (Core.state World (Core.reset World a))) = []) as Hdone0.
  { cbn [Core.reset Core.heap Core.state Core.completed_tasks].
    change (Core.heap World a ++ [[]; []]) with (Core.heap World a ++ [[]] ++ [[]]).
    rewrite app_assoc, deref_app_l by (rewrite length_app; cbn; lia).
    apply deref_app_new. }
  split.
  - unfold Core.get_state. rewrite Hdone0.
    cbn [Core.reset Core.heap Core.state Core.completed_tasks Core.pending_tasks
         Core.current_task Core.context Core.memory Memory.clear Memory.interactions
         length].
    f_equal.
    change (Core.heap World a ++ [[]; []]) with (Core.heap World a ++ [[]] ++ [[]]).
    rewrite app_assoc.
    replace (S (length (Core.heap World a)))
      with (length (Core.heap World a ++ [[]])) by (rewrite length_app; cbn; lia).
    apply deref_app_new.
  - assert (well_formed World (Core.reset World a)) as Hwf.
    { unfold well_formed. cbn [Core.reset Core.heap Core.state Core.completed_tasks].
      rewrite length_app. cbn. lia. }
    destruct (process_request_trace World clock planner executor user_request
                (Core.reset World a) Hwf)
      as (response & a' & new & Hrun & Hresp & Hdone & Hnew & Hframe & Hlog & _).
    rewrite Hdone0 in Hnew. cbn [app] in Hnew.
    exists response, a', new. split; [exact Hrun|].
    rewrite Hresp. split; [exact Hnew|]. split.
    + unfold Core.get_state. cbn [Core.v_completed_tasks]. rewrite Hdone. exact Hnew.
    + split.
      * rewrite Hlog. reflexivity.
      * intros l Hl. rewrite Hframe.
        -- cbn [Core.reset Core.heap]. now apply deref_app_l.
        -- cbn [Core.reset Core.heap]. rewrite length_app. cbn. lia.
        -- cbn [Core.reset Core.heap Core.state Core.completed_tasks]. lia.
Qed.

(** X24.  What a request writes to the interaction log, for any planner and
    dispatcher: the request under the role user, then one entry
    "Completed: <task>" under the role assistant for each task appended to
    the completed list, in that order, and, when the request succeeds, the
    summary of the response; a failed request logs no closing entry.  The
    memory size reported by [get_state] grows accordingly. *)
Theorem X24_request_log
        (World : Type) (clock : nat -> string)
        (planner : string -> gmap string Value -> Exc Planner.TaskPlan)
        (executor : string -> gmap string Value -> World -> Exc TaskResult * World)
        (a : Core.DevonAgent World) (user_request : string) :
  well_formed World a ->
  let done := Core.completed_tasks (Core.state World a) in
  exists response a' new,
    Core.process_request World clock planner executor user_request a = Some (response, a') /\
    Core.deref (Core.heap World a') done = Core.deref (Core.heap World a) done ++ new /\
    log_view (Core.memory World a')
    = log_view (Core.memory World a) ++ [("user", user_request)] ++
      map completed_entry new ++ closing_entries response /\
    Core.v_memory_size (Core.get_state World a')
    = Core.v_memory_size (Core.get_state World a) + 1 + length new +
      (if response is Core.Completed _ _ _ then 1 else 0).
Proof.
  intros Hwf done.
  destruct (process_request_trace World clock planner executor user_request a Hwf)
    as (response & a' & new & Hrun & _ & _ & Hnew & _ & Hlog & _).
  exists response, a', new. repeat split; try assumption.
  apply (f_equal (@length _)) in Hlog. unfold log_view in Hlog.
  repeat (rewrite ?length_app, ?length_map in Hlog).
  cbn [Core.get_state Core.v_memory_size].
  destruct response; cbn [closing_entries length] in Hlog; lia.
Qed.

Lemma X24_request_log_witness :
  well_formed unit (Core.new_agent unit tt) /\
  exists response a' new,
    Core.process_request unit fixed_clock Core.the_planner quiet_handler bug_request
                         (Core.new_agent unit tt) = Some (response, a') /\
    Core.deref (Core.heap unit a') 0 = Core.deref (Core.heap unit (Core.new_agent unit tt)) 0 ++ new /\
    log_view (Core.memory unit a')
    = log_view (Core.memory unit (Core.new_agent unit tt)) ++ [("user", bug_request)] ++
      map completed_entry new ++ closing_entries response /\
    Core.v_memory_size (Core.get_state unit a')
    = Core.v_memory_size (Core.get_state unit (Core.new_agent unit tt)) + 1 + length new +
      (if response is Core.Completed _ _ _ then 1 else 0).
Proof.
  assert (well_formed unit (Core.new_agent unit tt)) as Hwf
    by (unfold well_formed; simpl; lia).
  split; [exact Hwf|].
  exact (X24_request_log unit fixed_clock Core.the_planner quiet_handler
           (Core.new_agent unit tt) bug_request Hwf).
Defined.

Lemma evens_last (x : string) (l : list string) : exists t, last (evens (x :: l)) = Some t.
Proof.
  destruct (last (evens (x :: l))) as [t|] eqn:Hlast; [eauto|].
  apply last_None in Hlast. discriminate.
Qed.

(** X25.  [current_task] is set for each dispatched task and never cleared:
    after a request to the agent with its own planner and dispatcher,
    [get_state] still names a current task, the last one dispatched, which
    is the last task at an even position of the plan, while the pending list
    it shows is not empty: it holds the tasks at the odd positions. *)
Theorem X25_current_task_is_never_cleared
        (World : Type) (clock : nat -> string)
        (_execute_test_task _execute_implementation_task _execute_analysis_task
           _execute_debug_task : string -> gmap string Value -> World -> Exc TaskResult * World)
        (a : Core.DevonAgent World) (request : string) :
  well_formed World a ->
  let ts := Planner.tasks (Planner.create_plan request) in
  exists response a' task,
    Core.agent_process_request World clock _execute_test_task _execute_implementation_task
      _execute_analysis_task _execute_debug_task request a = Some (response, a') /\
    last (evens ts) = Some task /\
    Core.v_current_task (Core.get_state World a') = Some task /\
    Core.v_pending_tasks (Core.get_state World a') = odds ts /\
    odds ts <> [].
Proof.
  intros Hwf ts.
  destruct (wired_request_every_other World clock _execute_test_task
              _execute_implementation_task _execute_analysis_task _execute_debug_task
              request a Hwf) as (a' & Hrun & _ & Hnew & Hpend & _).
  destruct (process_request_trace World clock (Core.the_planner)
              (Core.the_executor World _execute_test_task _execute_implementation_task
                 _execute_analysis_task _execute_debug_task) request a Hwf)
    as (response & a2 & new & Hrun2 & _ & _ & Hnew2 & _ & _ & Hcur).
  unfold Core.agent_process_request in Hrun |- *.
  rewrite Hrun in Hrun2. injection Hrun2 as <- <-.
  rewrite Hnew in Hnew2. apply app_inv_head in Hnew2. subst new.
  fold ts in Hcur, Hpend.
  pose proof (plan_length request) as Hlen. cbn zeta in Hlen. fold ts in Hlen.
  destruct ts as [|x [|y rest]] eqn:Hts;
    [cbn in Hlen; lia | cbn in Hlen; lia |].
  destruct (evens_last x (y :: rest)) as [task Htask].
  eexists _, a', task. split; [exact Hrun|].
  split; [exact Htask|]. split.
  - cbn [Core.get_state Core.v_current_task].
    rewrite (Hcur _ _ _ eq_refl). unfold last_or. now rewrite Htask.
  - split; [exact Hpend|]. discriminate.
Qed.

Lemma X25_current_task_is_never_cleared_witness :
  well_formed unit (Core.new_agent unit tt) /\
  exists response a' task,
    Core.agent_process_request unit fixed_clock quiet_handler quiet_handler quiet_handler
      quiet_handler bug_request (Core.new_agent unit tt) = Some (response, a') /\
    last (evens (Planner.tasks (Planner.create_plan bug_request))) = Some task /\
    Core.v_current_task (Core.get_state unit a') = Some task /\
    Core.v_pending_tasks (Core.get_state unit a')
    = odds (Planner.tasks (Planner.create_plan bug_request)) /\
    odds (Planner.tasks (Planner.create_plan bug_request)) <> [].
Proof.
  assert (well_formed unit (Core.new_agent unit tt)) as Hwf
    by (unfold well_formed; simpl; lia).
  split; [exact Hwf|].
  exact (X25_current_task_is_never_cleared unit fixed_clock quiet_handler quiet_handler
           quiet_handler quiet_handler (Core.new_agent unit tt) bug_request Hwf).
Defined.
